(** * Sensor collector: UART line parser, MQTT publisher and poll loop

    A shallow embedding of [sensor_collector.py] (class [SensorCollector])
    and the properties of its line parser, its publisher and its run loop.

    Conventions of the embedding:
    - a Python [str] is the list of its Unicode code points ([pystr]);
    - the dictionary [sensor_data] is a finite map from key names to
      dynamically typed values;
    - the built-ins [float()] and [int()] are parameters of the parser
      (decoders returning [None] where Python raises [ValueError]);
    - exceptions are explicit: a computation returns [Ok v] or [Raise r];
    - calls into [serial], [paho.mqtt], [time], [datetime] and [logging] are
      recorded as events in a trace; what the outside world answers comes
      from an explicit [world] record;
    - the callbacks [on_mqtt_connect] and [on_mqtt_disconnect] run on the
      thread of the bus client and are not part of this sequential model. *)

From Stdlib Require Import ZArith NArith Ascii String List Lia.
From stdpp Require Import base option list gmap strings.

Set Default Proof Using "Type".

(** ** Python strings *)

Module PyStr.

(** A Python [str]: a sequence of code points. *)
Definition pystr := list N.

(** An ASCII literal of the source as a [pystr]. *)
Definition py (s : string) : pystr :=
  map N_of_ascii (list_ascii_of_string s).

(** [str.isspace] on one code point, the set used by [str.strip()] and
    [str.split()] without arguments (CPython's [_PyUnicode_IsWhitespace]). *)
Definition isspace (c : N) : bool :=
  ((9 <=? c) && (c <=? 13)         (* \t \n \v \f \r *)
   || (28 <=? c) && (c <=? 32)     (* FS GS RS US and the space *)
   || (c =? 133) || (c =? 160)     (* NEL, no-break space *)
   || (c =? 5760)
   || (8192 <=? c) && (c <=? 8202)
   || (c =? 8232) || (c =? 8233) || (c =? 8239) || (c =? 8287)
   || (c =? 12288))%N.

(** [s.lstrip()], [s.rstrip()], [s.strip()]. *)
Fixpoint lstrip (s : pystr) : pystr :=
  match s with
  | c :: s' => if isspace c then lstrip s' else s
  | [] => []
  end.

Definition rstrip (s : pystr) : pystr := rev (lstrip (rev s)).

Definition strip (s : pystr) : pystr := rstrip (lstrip s).

(** [s.split()]: maximal runs of non-space characters, in order; [cur]
    holds the current run, last character first. *)
Fixpoint split_from (cur : pystr) (s : pystr) : list pystr :=
  match s with
  | [] => match cur with [] => [] | _ => [rev cur] end
  | c :: s' =>
      if isspace c
      then match cur with
           | [] => split_from [] s'
           | _ => rev cur :: split_from [] s'
           end
      else split_from (c :: cur) s'
  end.

Definition split (s : pystr) : list pystr := split_from [] s.

(** [s.startswith(p)]. *)
Fixpoint startswith (p s : pystr) : bool :=
  match p, s with
  | [], _ => true
  | a :: p', b :: s' => (a =? b)%N && startswith p' s'
  | _ :: _, [] => false
  end.

(** The slice [s[n:]]. *)
Definition slice_from (n : nat) (s : pystr) : pystr := drop n s.

End PyStr.
Import PyStr.

(** ** Exceptions *)

(** Ordinary exceptions (subclasses of [Exception]) that the modelled calls
    raise. *)
Inductive exn :=
| ValueError
| KeyError (key : string)
| SerialException
| UnicodeDecodeError
| OSError
| OtherException.

(** What a [raise] carries: an ordinary exception, or the
    [KeyboardInterrupt] of an interrupt signal, which derives from
    [BaseException] only. *)
Inductive raised :=
| Exc (e : exn)
| KeyboardInterrupt.

Inductive res (A : Type) :=
| Ok (a : A)
| Raise (r : raised).
Arguments Ok {A} a.
Arguments Raise {A} r.

Definition res_bind {A B} (m : res A) (k : A → res B) : res B :=
  match m with
  | Ok a => k a
  | Raise r => Raise r
  end.

#[export] Instance res_mbind : MBind res := λ A B k m, res_bind m k.
#[export] Instance res_mret : MRet res := λ A a, Ok a.

(** [except Exception]: does the clause catch what was raised? *)
Definition is_Exception (r : raised) : bool :=
  match r with
  | Exc _ => true
  | KeyboardInterrupt => false
  end.

(** ** The line parser *)

(** Values stored in [sensor_data]: a [float] or an [int]. *)
Inductive value (F : Type) :=
| VFloat (f : F)
| VInt (z : Z).
Arguments VFloat {F} f.
Arguments VInt {F} z.

Section Collector.

(** The type of Python floats and the two built-in decoders: [None] stands
    for the [ValueError] that [float(s)] and [int(s)] raise. *)
Context {F : Type}.
Variable float_of_str : pystr → option F.
Variable int_of_str : pystr → option Z.

Definition py_float (s : pystr) : res F :=
  match float_of_str s with
  | Some f => Ok f
  | None => Raise (Exc ValueError)
  end.

Definition py_int (s : pystr) : res Z :=
  match int_of_str s with
  | Some z => Ok z
  | None => Raise (Exc ValueError)
  end.

(** One iteration of [for part in parts]. *)
Definition parse_part (sensor_data : gmap string (value F)) (part : pystr)
  : res (gmap string (value F)) :=
  if startswith (py "TEMP:") part then
    f ← py_float (slice_from 5 part);
    Ok (<["temperature" := VFloat f]> sensor_data)
  else if startswith (py "HUM:") part then
    f ← py_float (slice_from 4 part);
    Ok (<["humidity" := VFloat f]> sensor_data)
  else if startswith (py "STATUS:") part then
    z ← py_int (slice_from 7 part);
    Ok (<["status" := VInt z]> sensor_data)
  else Ok sensor_data.

(** The [for] loop over [parts]. *)
Fixpoint parse_parts (parts : list pystr) (sensor_data : gmap string (value F))
  : res (gmap string (value F)) :=
  match parts with
  | [] => Ok sensor_data
  | part :: rest =>
      d ← parse_part sensor_data part;
      parse_parts rest d
  end.

(** ['k' in sensor_data]. *)
Definition has_key (k : string) (d : gmap string (value F)) : bool :=
  bool_decide (is_Some (d !! k)).

(** The body of the [try]: [Ok (Some d)] is [return sensor_data], [Ok None]
    is falling out of the [try] block. *)
Definition parse_try (data_string : pystr)
  : res (option (gmap string (value F))) :=
  let parts := split (strip data_string) in
  sensor_data ← parse_parts parts ∅;
  if has_key "temperature" sensor_data && has_key "humidity" sensor_data
  then Ok (Some sensor_data)
  else Ok None.

(** [parse_sensor_data]: the [try] with its [except Exception] handler and
    the final [return None]. *)
Definition parse_sensor_data (data_string : pystr)
  : res (option (gmap string (value F))) :=
  match parse_try data_string with
  | Ok (Some sensor_data) => Ok (Some sensor_data)
  | Ok None => Ok None
  | Raise r => if is_Exception r then Ok None else Raise r
  end.

(** *** Configuration constants *)

Definition UART_PORT : string := "/dev/ttyUSB0".
Definition BAUD_RATE : Z := 9600.
Definition MQTT_BROKER : string := "localhost".
Definition MQTT_PORT : Z := 1883.
Definition MQTT_TOPIC_TEMP : string := "home/room1/temperature".
Definition MQTT_TOPIC_HUM : string := "home/room1/humidity".
Definition MQTT_TOPIC_STATUS : string := "home/room1/status".

(** *** Effects *)

Inductive level := DEBUG | INFO | WARNING | ERROR.

(** What an f-string of a log call interpolates. *)
Inductive log_arg :=
| AExn (e : exn)
| AVal (v : value F)
| AStr (s : string)
| AInt (z : Z).

(** The object handed to [json.dumps]. *)
Inductive jvalue :=
| JVal (v : value F)
| JStr (s : pystr).

Inductive json :=
| JObj (fields : list (string * jvalue)).

(** [json.dumps], a library function, is a parameter. *)
Variable json_dumps : json → pystr.

(** Calls that leave the process, in program order. *)
Inductive event :=
| SerialOpen (port : string) (baudrate timeout : Z)
| SerialWrite (data : pystr)
| SerialInWaiting
| SerialReadline
| SerialClose
| MqttConnect (host : string) (port keepalive : Z)
| MqttLoopStart
| MqttLoopStop
| MqttDisconnect
| MqttPublish (topic : string) (payload : pystr)
| ClockNow
| Sleep (seconds : nat)
| Log (lvl : level) (template : string) (args : list log_arg).

(** The collector object and its surroundings: [serial_conn] is [None]
    or a port with its [is_open] flag; [running] is the run flag; [trace]
    lists the calls made so far; [pending_interrupt = Some n] says that an
    interrupt signal arrives after [n] more calls, so that the next call
    after those raises [KeyboardInterrupt] instead of being made. One signal
    is modelled: it is consumed when raised. *)
Record state := mkState {
  serial_conn : option bool;
  running : bool;
  trace : list event;
  pending_interrupt : option nat
}.

Definition M (A : Type) : Type := state → res A * state.

Definition M_ret {A} (a : A) : M A := λ st, (Ok a, st).

Definition M_bind {A B} (m : M A) (k : A → M B) : M B :=
  λ st, match m st with
        | (Ok a, st') => k a st'
        | (Raise r, st') => (Raise r, st')
        end.

#[export] Instance M_mret : MRet M := @M_ret.
#[export] Instance M_mbind : MBind M := λ A B k m, M_bind m k.

Definition raise {A} (r : raised) : M A := λ st, (Raise r, st).

(** One call to the outside: made and recorded, unless the interrupt is
    due. *)
Definition emit (e : event) : M unit :=
  λ st, match pending_interrupt st with
        | Some 0 =>
            (Raise KeyboardInterrupt,
             mkState (serial_conn st) (running st) (trace st) None)
        | Some (S n) =>
            (Ok (), mkState (serial_conn st) (running st) (trace st ++ [e]) (Some n))
        | None =>
            (Ok (), mkState (serial_conn st) (running st) (trace st ++ [e]) None)
        end.

(** What a call to a library answers: a value or an ordinary exception. *)
Inductive answer (A : Type) :=
| Returns (a : A)
| Fails (e : exn).
Arguments Returns {A} a.
Arguments Fails {A} e.

Definition call {A} (e : event) (ans : answer A) : M A :=
  emit e;;
  match ans with
  | Returns a => mret a
  | Fails x => raise (Exc x)
  end.

(** [try: body except <clause> as e: handler]. *)
Definition try_except {A} (body : M A) (clause : raised → bool)
    (handler : raised → M A) : M A :=
  λ st, match body st with
        | (Raise r, st') => if clause r then handler r st' else (Raise r, st')
        | ok => ok
        end.

Definition is_SerialException (r : raised) : bool :=
  match r with Exc SerialException => true | _ => false end.

Definition is_KeyboardInterrupt (r : raised) : bool :=
  match r with KeyboardInterrupt => true | _ => false end.

Definition log_exn (r : raised) : list log_arg :=
  match r with Exc e => [AExn e] | KeyboardInterrupt => [] end.

Definition set_serial_conn (c : option bool) : M unit :=
  λ st, (Ok (), mkState c (running st) (trace st) (pending_interrupt st)).

Definition set_running (b : bool) : M unit :=
  λ st, (Ok (), mkState (serial_conn st) b (trace st) (pending_interrupt st)).

Definition get_serial_conn : M (option bool) := λ st, (Ok (serial_conn st), st).
Definition get_running : M bool := λ st, (Ok (running st), st).

(** *** The outside world *)

(** Answers of the serial port and the clock during one poll cycle. *)
Record cycle_world := mkCycle {
  write_answer : answer unit;      (* serial_conn.write(b'R') *)
  in_waiting_answer : answer N;    (* serial_conn.in_waiting *)
  readline_answer : answer pystr;  (* serial_conn.readline().decode('utf-8') *)
  now_isoformat : pystr            (* datetime.now().isoformat() *)
}.

Record world := mkWorld {
  uart_open_answer : answer unit;        (* serial.Serial(...) *)
  mqtt_connect_answer : answer unit;     (* mqtt_client.connect(...) *)
  mqtt_loop_start_answer : answer unit;  (* mqtt_client.loop_start() *)
  cycle : nat → cycle_world
}.

(** *** Methods of [SensorCollector] *)

Definition setup_uart (w : world) : M bool :=
  try_except
    (call (SerialOpen UART_PORT BAUD_RATE 1) (uart_open_answer w);;
     set_serial_conn (Some true);;
     emit (Log INFO "UART connection established on {UART_PORT}" [AStr UART_PORT]);;
     mret true)
    is_SerialException
    (λ e, emit (Log ERROR "Failed to open UART port: {e}" (log_exn e));;
          mret false).

Definition setup_mqtt (w : world) : M bool :=
  try_except
    (call (MqttConnect MQTT_BROKER MQTT_PORT 60) (mqtt_connect_answer w);;
     call MqttLoopStart (mqtt_loop_start_answer w);;
     emit (Log INFO "Connecting to MQTT broker at {MQTT_BROKER}:{MQTT_PORT}"
             [AStr MQTT_BROKER; AInt MQTT_PORT]);;
     mret true)
    is_Exception
    (λ e, emit (Log ERROR "Failed to setup MQTT: {e}" (log_exn e));;
          mret false).

(** The connection callbacks, as the bus client calls them with its result
    code [rc]. *)
Definition on_mqtt_connect (rc : Z) : M unit :=
  if (rc =? 0)%Z then
    emit (Log INFO "MQTT: Connected successfully" []);;
    emit (MqttPublish MQTT_TOPIC_STATUS (py "online"))
  else
    emit (Log ERROR "MQTT: Connection failed with code {rc}" [AInt rc]).

Definition on_mqtt_disconnect (rc : Z) : M unit :=
  if negb (rc =? 0)%Z then
    emit (Log WARNING "MQTT: Unexpected disconnection (code {rc})" [AInt rc])
  else mret ().

(** [parse_sensor_data] as the loop calls it: the value of
    [parse_sensor_data], with the [logger.error] of its handler. *)
Definition parse_sensor_data_call (data_string : pystr)
  : M (option (gmap string (value F))) :=
  match parse_try data_string with
  | Ok r => mret r
  | Raise r =>
      if is_Exception r
      then emit (Log ERROR "Error parsing sensor data: {e}" (log_exn r));;
           mret None
      else raise r
  end.

Definition read_sensor_data (c : cycle_world) : M (option pystr) :=
  try_except
    (n ← call SerialInWaiting (in_waiting_answer c);
     if (n =? 0)%N then mret None
     else data ← call SerialReadline (readline_answer c);
          mret (Some data))
    is_Exception
    (λ e, emit (Log ERROR "Error reading UART: {e}" (log_exn e));;
          mret None).

(** [sensor_data[k]]. *)
Definition getitem (sensor_data : gmap string (value F)) (k : string)
  : M (value F) :=
  match sensor_data !! k with
  | Some v => mret v
  | None => raise (Exc (KeyError k))
  end.

(** The unit strings ['°C'] and ['%']. *)
Definition unit_celsius : pystr := [176; 67]%N.
Definition unit_percent : pystr := [37]%N.

Definition payload_object (v : value F) (timestamp unit_ : pystr) : json :=
  JObj [("value", JVal v); ("timestamp", JStr timestamp); ("unit", JStr unit_)].

Definition publish_data (c : cycle_world)
    (sensor_data : gmap string (value F)) : M unit :=
  try_except
    (emit ClockNow;;
     let timestamp := now_isoformat c in
     t ← getitem sensor_data "temperature";
     let temp_payload := json_dumps (payload_object t timestamp unit_celsius) in
     emit (MqttPublish MQTT_TOPIC_TEMP temp_payload);;
     h ← getitem sensor_data "humidity";
     let hum_payload := json_dumps (payload_object h timestamp unit_percent) in
     emit (MqttPublish MQTT_TOPIC_HUM hum_payload);;
     t' ← getitem sensor_data "temperature";
     h' ← getitem sensor_data "humidity";
     emit (Log INFO "Published - Temp: {t}°C, Humidity: {h}%" [AVal t'; AVal h']))
    is_Exception
    (λ e, emit (Log ERROR "Error publishing data: {e}" (log_exn e))).

Definition request_sensor_reading (c : cycle_world) : M unit :=
  try_except
    (call (SerialWrite (py "R")) (write_answer c);;
     emit (Log DEBUG "Requested sensor reading from MCU" []))
    is_Exception
    (λ e, emit (Log ERROR "Error requesting sensor reading: {e}" (log_exn e))).

Definition stop : M unit :=
  set_running false;;
  (* [if self.mqtt_client:] the client object made in [__init__] is truthy *)
  emit (MqttPublish MQTT_TOPIC_STATUS (py "offline"));;
  emit MqttLoopStop;;
  emit MqttDisconnect;;
  conn ← get_serial_conn;
  match conn with
  | Some true =>
      (* [close()] leaves the port object with [is_open] false *)
      emit SerialClose;; set_serial_conn (Some false)
  | _ => mret ()
  end;;
  emit (Log INFO "Sensor collector stopped" []).

(** The block "Read response" of the loop body; [if data:] holds for a
    non-empty string, [if sensor_data:] for a non-empty dict. *)
Definition read_response (c : cycle_world) : M unit :=
  data ← read_sensor_data c;
  match data with
  | Some (ch :: rest) =>
      sensor_data ← parse_sensor_data_call (ch :: rest);
      match sensor_data with
      | Some d => if bool_decide (d = ∅) then mret () else publish_data c d
      | None => mret ()
      end
  | _ => mret ()
  end.

(** One pass through the body of [while self.running]. *)
Definition cycle_body (c : cycle_world) : M unit :=
  request_sensor_reading c;;
  emit (Sleep 1);;
  read_response c;;
  emit (Sleep 4).

(** How a bounded unfolding of the loop ends. *)
Inductive completion := Finished | StillRunning.

(** [while self.running: ...], unfolded at most [fuel] times; [i] counts
    the cycles. *)
Fixpoint poll_loop (w : world) (fuel : nat) (i : nat) : M completion :=
  get_running ≫= λ go : bool,
  if go then
    match fuel with
    | 0 => mret StillRunning
    | S fuel' => cycle_body (cycle w i);; poll_loop w fuel' (S i)
    end
  else mret Finished.

Definition run (w : world) (fuel : nat) : M completion :=
  emit (Log INFO "Starting sensor data collector..." []);;
  ok ← setup_uart w;
  if negb ok then
    emit (Log ERROR "Failed to setup UART" []);; mret Finished
  else
    ok ← setup_mqtt w;
    if negb ok then
      emit (Log ERROR "Failed to setup MQTT" []);; mret Finished
    else
      emit (Sleep 2);;
      emit (Log INFO "Sensor collector running. Press Ctrl+C to stop." []);;
      try_except (poll_loop w fuel 0)
        is_KeyboardInterrupt
        (λ _, emit (Log INFO "Stopping sensor collector..." []);;
              stop;;
              mret Finished).

(** The collector as [__init__] leaves it. *)
Definition init_state (interrupt : option nat) : state :=
  mkState None true [] interrupt.

End Collector.

Arguments Returns {A} a.
Arguments Fails {A} e.

(** ** A reference instance of the parameters

    Plain ASCII numerals, enough to run the collector on concrete lines:
    [ref_int] reads an optionally signed run of digits, [ref_float] an
    optionally signed decimal numeral with an optional fraction, kept as the
    exact decimal it denotes ([float()] rounds that number to binary64).
    [ref_dumps] writes a payload object as JSON text. *)

Module Ref.

(** [dec_mant * 10 ^ (- dec_scale)]. *)
Record decimal := mkDec { dec_mant : Z; dec_scale : nat }.

Definition digit (c : N) : option Z :=
  if ((48 <=? c) && (c <=? 57))%N then Some (Z.of_N c - 48)%Z else None.

(** Value of a run of digits appended to [acc]; [None] on another
    character. *)
Fixpoint digits_from (acc : Z) (s : pystr) : option Z :=
  match s with
  | [] => Some acc
  | c :: s' =>
      match digit c with
      | Some d => digits_from (acc * 10 + d)%Z s'
      | None => None
      end
  end.

Definition unsigned_int (s : pystr) : option Z :=
  match s with
  | [] => None
  | _ => digits_from 0 s
  end.

Definition with_sign {A} (read : pystr → option A) (neg : A → A)
    (s : pystr) : option A :=
  match s with
  | 45%N :: s' => neg <$> read s'
  | 43%N :: s' => read s'
  | _ => read s
  end.

Definition ref_int : pystr → option Z := with_sign unsigned_int Z.opp.

(** Splits at the first ['.']. *)
Fixpoint split_point (s : pystr) : pystr * option pystr :=
  match s with
  | [] => ([], None)
  | c :: s' =>
      if (c =? 46)%N then ([], Some s')
      else let '(a, b) := split_point s' in (c :: a, b)
  end.

Definition unsigned_float (s : pystr) : option decimal :=
  let '(ip, fp) := split_point s in
  let fp := default [] fp in
  match ip ++ fp with
  | [] => None
  | ds => (λ m, mkDec m (length fp)) <$> digits_from 0 ds
  end.

Definition ref_float : pystr → option decimal :=
  with_sign unsigned_float (λ d, mkDec (- dec_mant d) (dec_scale d)).

(** Decimal digits of a natural number, at least [width] of them. *)
Fixpoint show_digits (fuel width : nat) (n : N) (acc : pystr) : pystr :=
  match fuel with
  | 0 => acc
  | S fuel' =>
      let acc' := (48 + n mod 10)%N :: acc in
      if ((n <? 10)%N && (width <=? 1)%nat)%bool then acc'
      else show_digits fuel' (pred width) (n / 10)%N acc'
  end.

Definition show_N (width : nat) (n : N) : pystr :=
  show_digits (S (N.to_nat (N.log2 n)) + width) width n [].

Definition show_Z (z : Z) : pystr :=
  (if (z <? 0)%Z then [45%N] else []) ++ show_N 1 (Z.abs_N z).

Definition show_decimal (d : decimal) : pystr :=
  let p := (10 ^ N.of_nat (dec_scale d))%N in
  let a := Z.abs_N (dec_mant d) in
  (if (dec_mant d <? 0)%Z then [45%N] else [])
    ++ show_N 1 (a / p)%N ++ [46%N]
    ++ show_N (max 1 (dec_scale d)) (a mod p)%N.

Definition show_value (v : value decimal) : pystr :=
  match v with
  | VFloat d => show_decimal d
  | VInt z => show_Z z
  end.

Definition hex_digit (n : N) : N :=
  if (n <? 10)%N then (48 + n)%N else (87 + n)%N.

(** One character inside a JSON string, non-ASCII ones escaped. *)
Definition show_char (c : N) : pystr :=
  if ((c =? 34) || (c =? 92))%N then [92%N; c]
  else if ((32 <=? c) && (c <? 127))%N then [c]
  else py "\u" ++ map hex_digit
         [(c / 4096) mod 16; (c / 256) mod 16; (c / 16) mod 16; c mod 16]%N.

Definition show_str (s : pystr) : pystr :=
  [34%N] ++ concat (map show_char s) ++ [34%N].

Definition show_jvalue (j : jvalue (F := decimal)) : pystr :=
  match j with
  | JVal v => show_value v
  | JStr s => show_str s
  end.

Fixpoint show_fields (fs : list (string * jvalue (F := decimal))) : pystr :=
  match fs with
  | [] => []
  | [(k, v)] => show_str (py k) ++ py ": " ++ show_jvalue v
  | (k, v) :: fs' =>
      show_str (py k) ++ py ": " ++ show_jvalue v ++ py ", " ++ show_fields fs'
  end.

Definition ref_dumps (j : json (F := decimal)) : pystr :=
  match j with
  | JObj fs => py "{" ++ show_fields fs ++ py "}"
  end.

(** A world in which every call succeeds and the port answers [line] in
    every cycle. *)
Definition steady_cycle (line now : pystr) : cycle_world :=
  mkCycle (Returns ()) (Returns (N.of_nat (length line))) (Returns line) now.

Definition steady_world (line now : pystr) : world :=
  mkWorld (Returns ()) (Returns ()) (Returns ()) (λ _, steady_cycle line now).

End Ref.
Import Ref.

(** ** Vocabulary of the statements

    The response grammar in the words of its description: three recognized
    keys, each with a literal prefix, the name under which its value is
    stored and the numeric type of its value. *)

Inductive key := KTemp | KHum | KStatus.

#[export] Instance key_eq_dec : EqDecision key.
Proof. solve_decision. Defined.

Definition key_prefix (k : key) : pystr :=
  match k with
  | KTemp => py "TEMP:"
  | KHum => py "HUM:"
  | KStatus => py "STATUS:"
  end.

Definition key_name (k : key) : string :=
  match k with
  | KTemp => "temperature"
  | KHum => "humidity"
  | KStatus => "status"
  end.

(** The tokens of a line: what the parser iterates over. *)
Definition tokens (data_string : pystr) : list pystr :=
  split (strip data_string).

(** [t] is a token of key [k]. *)
Definition has_prefix (k : key) (t : pystr) : Prop :=
  ∃ v, t = key_prefix k ++ v.

(** [t] is a token of no recognized key. *)
Definition unrecognized (t : pystr) : Prop :=
  ∀ k, ¬ has_prefix k t.

Section Grammar.

Context {F : Type}.
Variable float_of_str : pystr → option F.
Variable int_of_str : pystr → option Z.

(** Decoding the value part [v] of a token of key [k]. *)
Definition key_decode (k : key) (v : pystr) : option (value F) :=
  match k with
  | KTemp | KHum => VFloat <$> float_of_str v
  | KStatus => VInt <$> int_of_str v
  end.

(** Every recognized key that [t] begins with has a decodable value part. *)
Definition decodable (t : pystr) : Prop :=
  ∀ k v, t = key_prefix k ++ v → is_Some (key_decode k v).

(** [t] begins with a recognized key and its value part does not decode. *)
Definition undecodable (t : pystr) : Prop :=
  ∃ k v, t = key_prefix k ++ v ∧ key_decode k v = None.

End Grammar.

(** ** Vocabulary of the statements about calls *)

(** What a call is for. *)
Inductive kind := KOpen | KConnect | KPoll | KSleep | KTeardown | KLog.

#[export] Instance kind_eq_dec : EqDecision kind.
Proof. solve_decision. Defined.

Section Calls.

Context {F : Type}.

Local Abbreviation event := (@event F).
Local Abbreviation state := (@state F).
Local Abbreviation M := (@M F).

(** Opening the port; dispatching the bus connection; the traffic of a
    poll cycle (request, read, clock, the two data topics); the waits;
    what [stop] does (status topic, loop stop, disconnect, close); logging. *)
Definition kind_of (e : event) : kind :=
  match e with
  | SerialOpen _ _ _ => KOpen
  | MqttConnect _ _ _ | MqttLoopStart => KConnect
  | SerialWrite _ | SerialInWaiting | SerialReadline | ClockNow => KPoll
  | MqttPublish topic _ =>
      if String.eqb topic MQTT_TOPIC_STATUS then KTeardown else KPoll
  | Sleep _ => KSleep
  | MqttLoopStop | MqttDisconnect | SerialClose => KTeardown
  | Log _ _ _ => KLog
  end.

(** All calls of [evs] are of the kinds [ks]. *)
Definition of_kinds (ks : list kind) (e : event) : Prop := kind_of e ∈ ks.

Definition is_publish (e : event) : bool :=
  match e with MqttPublish _ _ => true | _ => false end.

Definition is_clock (e : event) : bool :=
  match e with ClockNow => true | _ => false end.

(** The state after the calls [evs] went through uninterrupted. *)
Definition after_calls (evs : list event) (st : state) : state :=
  mkState (serial_conn st) (running st) (trace st ++ evs)
    ((λ n, n - length evs) <$> pending_interrupt st).

(** No interrupt is due within the next [k] calls. *)
Definition no_interrupt_within (k : nat) (st : state) : Prop :=
  match pending_interrupt st with
  | None => True
  | Some n => k ≤ n
  end.

Definition interrupted {A} (r : res A) : bool :=
  match r with
  | Raise KeyboardInterrupt => true
  | _ => false
  end.

(** From [st] to [st'] some calls satisfying [P] were made, the run flag
    was left alone, and the pending interrupt was counted down by the number
    of calls; [b] says whether it was raised at the end. *)
Definition steps (P : event → Prop) (st : state) (b : bool) (st' : state)
  : Prop :=
  ∃ evs, Forall P evs
         ∧ trace st' = trace st ++ evs
         ∧ running st' = running st
         ∧ if b
           then pending_interrupt st = Some (length evs)
                ∧ pending_interrupt st' = None
           else match pending_interrupt st with
                | None => pending_interrupt st' = None
                | Some n => length evs ≤ n
                            ∧ pending_interrupt st' = Some (n - length evs)
                end.

(** [m] makes calls satisfying [P] only, leaves the run flag alone, and,
    unless the interrupt cuts it short, ends with a result satisfying [Q]. *)
Definition calls {A} (P : event → Prop) (Q : res A → Prop) (m : M A) : Prop :=
  ∀ st, steps P st (interrupted (m st).1) (m st).2
        ∧ (interrupted (m st).1 = false → Q (m st).1).

(** [m] leaves [serial_conn] alone. *)
Definition keeps_serial {A} (m : M A) : Prop :=
  ∀ st, serial_conn (m st).2 = serial_conn st.

(** No ordinary exception escapes. *)
Definition returns {A} (r : res A) : Prop := ∃ a, r = Ok a.

(** What [stop] does after the handler's log line, for an open port. *)
Definition teardown : list event :=
  [ Log INFO "Stopping sensor collector..." [];
    MqttPublish MQTT_TOPIC_STATUS (py "offline");
    MqttLoopStop;
    MqttDisconnect;
    SerialClose;
    Log INFO "Sensor collector stopped" [] ].

Definition is_teardown (e : event) : bool :=
  bool_decide (kind_of e = KTeardown).

(** The two messages of one reading, as [publish_data] builds them. *)
Definition reading_messages (json_dumps : json (F := F) → pystr)
    (timestamp : pystr) (t h : value F) : list event :=
  [ MqttPublish MQTT_TOPIC_TEMP
      (json_dumps (JObj [("value", JVal t);
                         ("timestamp", JStr timestamp);
                         ("unit", JStr [176; 67]%N)]));
    MqttPublish MQTT_TOPIC_HUM
      (json_dumps (JObj [("value", JVal h);
                         ("timestamp", JStr timestamp);
                         ("unit", JStr (py "%"))])) ].

(** All calls of one successful [publish_data]. *)
Definition publish_calls (json_dumps : json (F := F) → pystr)
    (timestamp : pystr) (t h : value F) : list event :=
  ClockNow :: reading_messages json_dumps timestamp t h
    ++ [Log INFO "Published - Temp: {t}°C, Humidity: {h}%" [AVal t; AVal h]].

(** A call that [publish_data] may make for the reading [d]: a message
    whose payload is the dump of an object with exactly the fields [value],
    [timestamp] and [unit], the value being the temperature or the humidity
    entry of [d]; a clock read; a log line. *)
Definition reading_call (json_dumps : json (F := F) → pystr)
    (timestamp : pystr) (d : gmap string (value F)) (e : event) : Prop :=
  match e with
  | MqttPublish topic payload =>
      ∃ k v u, (k = "temperature" ∨ k = "humidity")
               ∧ d !! k = Some v
               ∧ payload = json_dumps (JObj [("value", JVal v);
                                             ("timestamp", JStr timestamp);
                                             ("unit", JStr u)])
  | ClockNow | Log _ _ _ => True
  | _ => False
  end.

(** What [setup_uart] and [setup_mqtt] answer, by what the libraries
    answered. *)
Definition setup_uart_result (w : world) (r : res bool) : Prop :=
  match uart_open_answer w with
  | Returns _ => r = Ok true
  | Fails SerialException => r = Ok false
  | Fails e => r = Raise (Exc e)
  end.

Definition setup_mqtt_result (w : world) (r : res bool) : Prop :=
  match mqtt_connect_answer w, mqtt_loop_start_answer w with
  | Returns _, Returns _ => r = Ok true
  | _, _ => r = Ok false
  end.

(** How [run] can end: without any teardown call and with the run flag
    untouched; or interrupted at [st1], after which the handler ran [stop]
    on the open port and left it closed. *)
Definition run_outcome (st : state) (out : res completion * state) : Prop :=
  steps (of_kinds [KOpen; KConnect; KPoll; KSleep; KLog]) st
    (interrupted out.1) out.2
  ∨ ∃ st1, steps (of_kinds [KOpen; KConnect; KPoll; KSleep; KLog]) st true st1
           ∧ out = (Ok Finished,
                    mkState (Some false) false (trace st1 ++ teardown) None).

(** The wait that ends a poll cycle. *)
Definition is_cycle_end (e : event) : bool :=
  match e with Sleep 4 => true | _ => false end.

(** A call that a poll cycle may make in the world [c]: a message only if
    the port had data, the line read was accepted by the parser, and the
    payload is built from the reading parsed; any call of another kind. *)
Definition cycle_call (float_of_str : pystr → option F)
    (int_of_str : pystr → option Z) (json_dumps : json (F := F) → pystr)
    (c : cycle_world) (e : event) : Prop :=
  match e with
  | MqttPublish _ _ =>
      ∃ n line d,
        in_waiting_answer c = Returns n ∧ n ≠ 0%N
        ∧ readline_answer c = Returns line
        ∧ parse_sensor_data float_of_str int_of_str line = Ok (Some d)
        ∧ reading_call json_dumps (now_isoformat c) d e
  | _ => True
  end.

(** The calls of [stop], by the state of the port. *)
Definition stop_calls (conn : option bool) : list event :=
  [ MqttPublish MQTT_TOPIC_STATUS (py "offline"); MqttLoopStop; MqttDisconnect ]
    ++ match conn with Some true => [SerialClose] | _ => [] end
    ++ [ Log INFO "Sensor collector stopped" [] ].

(** The calls of [run] before it enters the loop, when both setup steps
    succeed. *)
Definition startup : list event :=
  [ Log INFO "Starting sensor data collector..." [];
    SerialOpen UART_PORT BAUD_RATE 1;
    Log INFO "UART connection established on {UART_PORT}" [AStr UART_PORT];
    MqttConnect MQTT_BROKER MQTT_PORT 60;
    MqttLoopStart;
    Log INFO "Connecting to MQTT broker at {MQTT_BROKER}:{MQTT_PORT}"
      [AStr MQTT_BROKER; AInt MQTT_PORT];
    Sleep 2;
    Log INFO "Sensor collector running. Press Ctrl+C to stop." [] ].

End Calls.

(** ** Facts about Python strings *)

Section PyStrFacts.

Lemma startswith_app (p v : pystr) : startswith p (p ++ v) = true.
Proof.
  induction p as [|a p IH]; simpl; [done|].
  by rewrite N.eqb_refl, IH.
Qed.

Lemma startswith_inv (p s : pystr) :
  startswith p s = true → s = p ++ drop (length p) s.
Proof.
  revert s. induction p as [|a p IH]; intros [|b s]; simpl; try done.
  intros [Hab Hs]%andb_prop. apply N.eqb_eq in Hab as ->.
  f_equal. by apply IH.
Qed.

Lemma startswith_spec (p s : pystr) :
  startswith p s = true ↔ ∃ v, s = p ++ v.
Proof.
  split.
  - intros H. eexists. by apply startswith_inv.
  - intros [v ->]. apply startswith_app.
Qed.

Lemma lstrip_spaces (s : pystr) :
  Forall (λ c, isspace c = true) s → lstrip s = [].
Proof. induction 1 as [|c s Hc _ IH]; simpl; [done|]. by rewrite Hc. Qed.

Lemma strip_spaces (s : pystr) :
  Forall (λ c, isspace c = true) s → strip s = [].
Proof. intros H. unfold strip, rstrip. by rewrite (lstrip_spaces s H). Qed.

Lemma tokens_spaces (s : pystr) :
  Forall (λ c, isspace c = true) s → tokens s = [].
Proof. intros H. unfold tokens. by rewrite (strip_spaces s H). Qed.

(** Tabs, line ends and the no-break space separate tokens like blanks. *)
Example tokens_of_line :
  tokens ([32; 160]%N ++ py "TEMP:23.5" ++ [9]%N ++ py "HUM:60.2 X"
            ++ [32; 13; 10]%N)
  = [py "TEMP:23.5"; py "HUM:60.2"; py "X"].
Proof. reflexivity. Qed.

Example tokens_of_empty_line : tokens [] = [] ∧ tokens [13; 10]%N = [].
Proof. split; reflexivity. Qed.

(** Keys are told apart by their first character. *)
Lemma has_prefix_inj (k1 k2 : key) (t : pystr) :
  has_prefix k1 t → has_prefix k2 t → k1 = k2.
Proof.
  intros [v1 ->] [v2 H]. destruct k1, k2; try done; discriminate H.
Qed.

Lemma key_name_inj (k1 k2 : key) : key_name k1 = key_name k2 → k1 = k2.
Proof. by destruct k1, k2. Qed.

Lemma has_prefix_startswith (k : key) (t : pystr) :
  has_prefix k t ↔ startswith (key_prefix k) t = true.
Proof. symmetry. apply startswith_spec. Qed.

Lemma unrecognized_startswith (t : pystr) (k : key) :
  unrecognized t → startswith (key_prefix k) t = false.
Proof.
  intros H. apply not_true_is_false. intros Hs.
  by apply (H k), has_prefix_startswith.
Qed.

End PyStrFacts.

(** ** Facts about the parser loop *)

Section ParserFacts.

Context {F : Type}.
Variable float_of_str : pystr → option F.
Variable int_of_str : pystr → option Z.

Local Abbreviation dict := (gmap string (value F)).
Local Abbreviation parse_part := (parse_part float_of_str int_of_str).
Local Abbreviation parse_parts := (parse_parts float_of_str int_of_str).
Local Abbreviation parse_try := (parse_try float_of_str int_of_str).
Local Abbreviation parse_sensor_data := (parse_sensor_data float_of_str int_of_str).
Local Abbreviation key_decode := (key_decode float_of_str int_of_str).
Local Abbreviation decodable := (decodable float_of_str int_of_str).
Local Abbreviation undecodable := (undecodable float_of_str int_of_str).

(** What one iteration does with a token of key [k]. *)
Lemma parse_part_key (d : dict) (k : key) (v : pystr) :
  parse_part d (key_prefix k ++ v) =
    match key_decode k v with
    | Some x => Ok (<[key_name k := x]> d)
    | None => Raise (Exc ValueError)
    end.
Proof.
  destruct k; unfold parse_part, py_float, py_int; simpl;
    rewrite ?N.eqb_refl; simpl; unfold slice_from; simpl.
  - by destruct (float_of_str v).
  - by destruct (float_of_str v).
  - by destruct (int_of_str v).
Qed.

(** What one iteration does with any other token. *)
Lemma parse_part_skip (d : dict) (t : pystr) :
  unrecognized t → parse_part d t = Ok d.
Proof.
  intros H. unfold parse_part.
  rewrite (unrecognized_startswith t KTemp H : startswith (py "TEMP:") t = false).
  rewrite (unrecognized_startswith t KHum H : startswith (py "HUM:") t = false).
  by rewrite (unrecognized_startswith t KStatus H
               : startswith (py "STATUS:") t = false).
Qed.

Lemma recognized_or_not (t : pystr) :
  (∃ k, has_prefix k t) ∨ unrecognized t.
Proof.
  destruct (startswith (key_prefix KTemp) t) eqn:H1;
    [left; exists KTemp; by apply has_prefix_startswith|].
  destruct (startswith (key_prefix KHum) t) eqn:H2;
    [left; exists KHum; by apply has_prefix_startswith|].
  destruct (startswith (key_prefix KStatus) t) eqn:H3;
    [left; exists KStatus; by apply has_prefix_startswith|].
  right. intros [] Hk%has_prefix_startswith; congruence.
Qed.

Lemma parse_parts_app (l1 l2 : list pystr) (d : dict) :
  parse_parts (l1 ++ l2) d = parse_parts l1 d ≫= parse_parts l2.
Proof.
  revert d. induction l1 as [|t l1 IH]; intros d; simpl; [done|].
  destruct (parse_part d t) as [d'|r]; simpl; [apply IH|done].
Qed.

(** The loop raises nothing but the [ValueError] of a decoder. *)
Lemma parse_parts_raise (l : list pystr) (d : dict) (r : raised) :
  parse_parts l d = Raise r → r = Exc ValueError.
Proof.
  revert d. induction l as [|t l IH]; intros d; simpl; [done|].
  destruct (parse_part d t) as [d'|r'] eqn:Ht; simpl; [apply IH|].
  intros [= <-]. destruct (recognized_or_not t) as [[k [v ->]]|Hu].
  - rewrite parse_part_key in Ht. by destruct (key_decode k v); simplify_eq.
  - by rewrite parse_part_skip in Ht.
Qed.

(** Tokens of other keys leave the entry of [k] alone. *)
Lemma parse_parts_other (l : list pystr) (d d' : dict) (k : key) :
  Forall (λ t, ¬ has_prefix k t) l →
  parse_parts l d = Ok d' →
  d' !! key_name k = d !! key_name k.
Proof.
  intros Hl. revert d. induction Hl as [|t l Ht _ IH]; intros d; simpl.
  - by intros [= ->].
  - destruct (recognized_or_not t) as [[k' [v ->]]|Hu].
    + rewrite parse_part_key. destruct (key_decode k' v) as [x|]; simpl; [|done].
      intros ->%IH. apply lookup_insert_ne. intros ->%key_name_inj.
      apply Ht. by exists v.
    + rewrite parse_part_skip by done. apply IH.
Qed.

(** The last token of key [k] decides the entry of [k]. *)
Lemma parse_parts_last (l1 l2 : list pystr) (d d' : dict) (k : key) (v : pystr) :
  Forall (λ t, ¬ has_prefix k t) l2 →
  parse_parts (l1 ++ (key_prefix k ++ v) :: l2) d = Ok d' →
  key_decode k v = d' !! key_name k ∧ is_Some (d' !! key_name k).
Proof.
  intros Hl2. rewrite parse_parts_app.
  destruct (parse_parts l1 d) as [d1|]; simpl; [|done].
  rewrite parse_part_key. destruct (key_decode k v) as [x|]; simpl; [|done].
  intros ->%(parse_parts_other _ _ _ k Hl2).
  rewrite lookup_insert_eq. eauto.
Qed.

(** Decodable tokens never stop the loop. *)
Lemma parse_parts_ok (l : list pystr) (d : dict) :
  Forall decodable l → ∃ d', parse_parts l d = Ok d'.
Proof.
  intros Hl. revert d. induction Hl as [|t l Ht _ IH]; intros d; simpl; [eauto|].
  destruct (recognized_or_not t) as [[k [v ->]]|Hu].
  - rewrite parse_part_key. destruct (Ht k v eq_refl) as [x ->]. apply IH.
  - rewrite parse_part_skip by done. apply IH.
Qed.

(** One undecodable token stops it. *)
Lemma parse_parts_undecodable (l : list pystr) (d : dict) (t : pystr) :
  t ∈ l → undecodable t → parse_parts l d = Raise (Exc ValueError).
Proof.
  intros Hin (k & v & -> & Hv).
  apply list_elem_of_split in Hin as (l1 & l2 & ->).
  rewrite parse_parts_app.
  destruct (parse_parts l1 d) as [d1|r] eqn:H1; simpl.
  - by rewrite parse_part_key, Hv.
  - by rewrite (parse_parts_raise _ _ _ H1).
Qed.

(** With no token of key [k], the entry of [k] is as at the start. *)
Lemma parse_parts_absent (l : list pystr) (d d' : dict) (k : key) :
  (∀ t, t ∈ l → ¬ has_prefix k t) →
  parse_parts l d = Ok d' →
  d' !! key_name k = d !! key_name k.
Proof. intros Hl. apply parse_parts_other. by apply Forall_forall. Qed.

(** The body of the [try] raises nothing but a decoder's [ValueError]. *)
Lemma parse_try_raise (s : pystr) (r : raised) :
  parse_try s = Raise r → r = Exc ValueError.
Proof.
  unfold parse_try.
  destruct (parse_parts _ ∅) as [d|r'] eqn:Hp; simpl.
  - by destruct (_ && _).
  - intros [= <-]. by apply parse_parts_raise in Hp.
Qed.

Lemma parse_sensor_data_unfold (s : pystr) :
  parse_sensor_data s =
    match parse_parts (tokens s) ∅ with
    | Ok d =>
        if has_key "temperature" d && has_key "humidity" d
        then Ok (Some d) else Ok None
    | Raise r => if is_Exception r then Ok None else Raise r
    end.
Proof.
  unfold parse_sensor_data, parse_try, tokens.
  destruct (parse_parts _ _) as [d|r]; simpl; [|done].
  by destruct (_ && _).
Qed.

End ParserFacts.

(** ** The line parser: properties *)

Section LineParser.

Context {F : Type}.
Variable float_of_str : pystr → option F.
Variable int_of_str : pystr → option Z.

Local Abbreviation dict := (gmap string (value F)).
Local Abbreviation parse_part := (parse_part float_of_str int_of_str).
Local Abbreviation parse_parts := (parse_parts float_of_str int_of_str).
Local Abbreviation parse_try := (parse_try float_of_str int_of_str).
Local Abbreviation parse_sensor_data := (parse_sensor_data float_of_str int_of_str).
Local Abbreviation key_decode := (key_decode float_of_str int_of_str).
Local Abbreviation decodable := (decodable float_of_str int_of_str).
Local Abbreviation undecodable := (undecodable float_of_str int_of_str).

(** Entries are never removed by the loop. *)
Lemma parse_parts_keeps (l : list pystr) (d d' : dict) (k : key) :
  parse_parts l d = Ok d' →
  is_Some (d !! key_name k) ∨ Exists (has_prefix k) l →
  is_Some (d' !! key_name k).
Proof.
  revert d. induction l as [|t l IH]; intros d; simpl.
  - intros [= ->] [H|H%Exists_nil]; done.
  - destruct (parse_part d t) as [d1|] eqn:Ht; simpl; [|done].
    intros Hl Hk. apply (IH d1 Hl).
    destruct (recognized_or_not t) as [[k' [v ->]]|Hu].
    + rewrite parse_part_key in Ht.
      destruct (key_decode k' v) as [x|]; [|done]. injection Ht as <-.
      destruct (decide (k' = k)) as [->|Hne].
      * left. rewrite lookup_insert_eq. eauto.
      * destruct Hk as [Hk|[Hk|Hk]%Exists_cons]; [| |by right].
        -- left. rewrite lookup_insert_ne; [done|]. by intros ?%key_name_inj.
        -- destruct Hne. eapply has_prefix_inj; [|done]. by exists v.
    + rewrite parse_part_skip in Ht by done. injection Ht as <-.
      destruct Hk as [Hk|[Hk|Hk]%Exists_cons]; [by left| |by right].
      by destruct (Hu k).
Qed.

(** A line of decodable tokens with a TEMP and a HUM token yields the
    dictionary that the loop built. *)
Lemma parse_returns_reading (s : pystr) :
  (∀ t, t ∈ tokens s → decodable t) →
  Exists (has_prefix KTemp) (tokens s) →
  Exists (has_prefix KHum) (tokens s) →
  ∃ d, parse_parts (tokens s) ∅ = Ok d ∧ parse_sensor_data s = Ok (Some d).
Proof.
  intros Hd Ht Hh. rewrite parse_sensor_data_unfold.
  destruct (parse_parts_ok float_of_str int_of_str (tokens s) ∅) as [d Hp];
    [by apply Forall_forall|].
  exists d. rewrite Hp. split; [done|].
  unfold has_key.
  rewrite !bool_decide_eq_true_2; [done| |].
  - apply (parse_parts_keeps _ _ _ KHum Hp). by right.
  - apply (parse_parts_keeps _ _ _ KTemp Hp). by right.
Qed.

Lemma has_key_false (k : string) (d : dict) :
  d !! k = None → has_key k d = false.
Proof.
  intros H. unfold has_key. apply bool_decide_eq_false_2.
  rewrite H. by intros [? ?].
Qed.

(** A line without a token of one of the two required keys is rejected. *)
Lemma parse_missing (s : pystr) (k : key) :
  k = KTemp ∨ k = KHum →
  (∀ t, t ∈ tokens s → ¬ has_prefix k t) →
  parse_sensor_data s = Ok None.
Proof.
  intros Hk Hno. rewrite parse_sensor_data_unfold.
  destruct (parse_parts (tokens s) ∅) as [d|r] eqn:Hp.
  - pose proof (parse_parts_absent _ _ _ _ _ k Hno Hp) as Hl.
    rewrite lookup_empty in Hl.
    destruct Hk as [-> | ->]; simpl in Hl; rewrite (has_key_false _ _ Hl);
      [done | by rewrite andb_false_r].
  - by rewrite (parse_parts_raise _ _ _ _ _ Hp).
Qed.

(** A line with an undecodable token is rejected. *)
Lemma parse_undecodable (s t : pystr) :
  t ∈ tokens s → undecodable t → parse_sensor_data s = Ok None.
Proof.
  intros Hin Hbad. rewrite parse_sensor_data_unfold.
  by rewrite (parse_parts_undecodable _ _ _ ∅ t Hin Hbad).
Qed.

Lemma parse_parts_cons (t : pystr) (l : list pystr) (d : dict) :
  parse_parts (t :: l) d = parse_part d t ≫= parse_parts l.
Proof. done. Qed.

(** C1. For every line that contains a token [TEMP:<f>] and a token
    [HUM:<f>] (for a key given more than once, the last one) and whose
    recognized tokens all decode, [parse_sensor_data] returns a reading
    whose temperature and humidity are the decoded values, wherever the two
    tokens stand and whatever unrecognized tokens surround them; and the line
    "TEMP:23.5 HUM:60.2 STATUS:1" yields the reading with the three decoded
    values. *)
Theorem parse_reads_temp_and_hum
    (s : pystr) (l1 l2 l1' l2' : list pystr) (vt vh : pystr) (ft fh : F) :
  tokens s = l1 ++ (py "TEMP:" ++ vt) :: l2 →
  (∀ t, t ∈ l2 → ¬ has_prefix KTemp t) →
  tokens s = l1' ++ (py "HUM:" ++ vh) :: l2' →
  (∀ t, t ∈ l2' → ¬ has_prefix KHum t) →
  (∀ t, t ∈ tokens s → decodable t) →
  float_of_str vt = Some ft →
  float_of_str vh = Some fh →
  (∃ d, parse_sensor_data s = Ok (Some d)
        ∧ d !! "temperature" = Some (VFloat ft)
        ∧ d !! "humidity" = Some (VFloat fh))
  ∧ parse_sensor_data (py "TEMP:23.5 HUM:60.2 STATUS:1") =
      match float_of_str (py "23.5"), float_of_str (py "60.2"),
            int_of_str (py "1") with
      | Some a, Some b, Some c =>
          Ok (Some (<["status" := VInt c]>
                      (<["humidity" := VFloat b]>
                         (<["temperature" := VFloat a]> ∅))))
      | _, _, _ => Ok None
      end.
Proof.
  intros Ht Hl2 Hh Hl2' Hdec Hft Hfh. split.
  - destruct (parse_returns_reading s Hdec) as (d & Hp & Hd).
    + rewrite Ht. apply Exists_app. right. left. by exists vt.
    + rewrite Hh. apply Exists_app. right. left. by exists vh.
    + exists d. split; [done|]. split.
      * rewrite Ht in Hp.
        apply (parse_parts_last _ _ l1 l2 ∅ d KTemp vt) in Hp as [Hp _];
          [|by apply Forall_forall].
        simpl in Hp. by rewrite <-Hp, Hft.
      * rewrite Hh in Hp.
        apply (parse_parts_last _ _ l1' l2' ∅ d KHum vh) in Hp as [Hp _];
          [|by apply Forall_forall].
        simpl in Hp. by rewrite <-Hp, Hfh.
  - rewrite parse_sensor_data_unfold.
    change (tokens (py "TEMP:23.5 HUM:60.2 STATUS:1"))
      with [key_prefix KTemp ++ py "23.5"; key_prefix KHum ++ py "60.2";
            key_prefix KStatus ++ py "1"].
    rewrite parse_parts_cons, parse_part_key. cbn [key_decode key_name].
    destruct (float_of_str (py "23.5")) as [a|]; [|done].
    cbn [fmap option_fmap option_map mbind res_mbind res_bind].
    rewrite parse_parts_cons, parse_part_key. cbn [key_decode key_name].
    destruct (float_of_str (py "60.2")) as [b|]; [|done].
    cbn [fmap option_fmap option_map mbind res_mbind res_bind].
    rewrite parse_parts_cons, parse_part_key. cbn [key_decode key_name].
    destruct (int_of_str (py "1")) as [c|]; [|done].
    cbn [fmap option_fmap option_map mbind res_mbind res_bind parse_parts].
    unfold has_key. rewrite !bool_decide_eq_true_2; [done| |].
    + rewrite lookup_insert_ne, lookup_insert_eq by done. eauto.
    + rewrite !lookup_insert_ne, lookup_insert_eq by done. eauto.
Qed.

(** C2. Every line in which no token begins with [TEMP:], or no token
    begins with [HUM:], is rejected: [parse_sensor_data] returns [None];
    so is the line "HUM:60.2". *)
Theorem parse_rejects_missing_key (s : pystr) :
  (∀ t, t ∈ tokens s → ¬ has_prefix KTemp t)
  ∨ (∀ t, t ∈ tokens s → ¬ has_prefix KHum t) →
  parse_sensor_data s = Ok None
  ∧ parse_sensor_data (py "HUM:60.2") = Ok None.
Proof.
  intros H. split.
  - destruct H as [H|H]; [apply (parse_missing s KTemp)|apply (parse_missing s KHum)];
      auto.
  - apply (parse_missing _ KTemp); [by left|].
    intros t Hin [v Hv]. change (tokens (py "HUM:60.2")) with [py "HUM:60.2"] in Hin.
    apply list_elem_of_singleton in Hin as ->. discriminate Hv.
Qed.

(** C3. Every line with at least one token that begins with [TEMP:],
    [HUM:] or [STATUS:] and whose value part does not decode is rejected as
    a whole, whatever its other tokens are: the result is [None], never a
    dictionary; so is the line "TEMP:abc HUM:60.2" when [float("abc")]
    fails. *)
Theorem parse_rejects_undecodable_token (s t : pystr) :
  t ∈ tokens s →
  undecodable t →
  parse_sensor_data s = Ok None
  ∧ (float_of_str (py "abc") = None →
     parse_sensor_data (py "TEMP:abc HUM:60.2") = Ok None).
Proof.
  intros Hin Hbad. split; [by apply (parse_undecodable s t)|].
  intros Habc. apply (parse_undecodable _ (py "TEMP:abc")).
  - change (tokens (py "TEMP:abc HUM:60.2")) with [py "TEMP:abc"; py "HUM:60.2"].
    by left.
  - exists KTemp, (py "abc"). split; [done|]. simpl. by rewrite Habc.
Qed.

(** C7. For a line whose recognized tokens all decode and which has a
    TEMP and a HUM token, the reading returned by [parse_sensor_data]
    carries, for each recognized key, the decoded value of the last token
    of that key in left-to-right order. *)
Theorem parse_last_occurrence_wins
    (s : pystr) (k : key) (l1 l2 : list pystr) (v : pystr) :
  (∀ t, t ∈ tokens s → decodable t) →
  Exists (has_prefix KTemp) (tokens s) →
  Exists (has_prefix KHum) (tokens s) →
  tokens s = l1 ++ (key_prefix k ++ v) :: l2 →
  (∀ t, t ∈ l2 → ¬ has_prefix k t) →
  ∃ d x, parse_sensor_data s = Ok (Some d)
         ∧ key_decode k v = Some x
         ∧ d !! key_name k = Some x.
Proof.
  intros Hdec Ht Hh Hs Hl2.
  destruct (parse_returns_reading s Hdec Ht Hh) as (d & Hp & Hd).
  rewrite Hs in Hp.
  apply (parse_parts_last _ _ l1 l2 ∅ d k v) in Hp as [Hp [x Hx]];
    [|by apply Forall_forall].
  exists d, x. by rewrite Hp.
Qed.

(** C8. [parse_sensor_data] is total: on every line it returns, a
    dictionary or [None], and raises nothing; whatever the body of its
    [try] raises becomes [None]; so do the empty line, a line of white
    space and a line with an undecodable token. *)
Theorem parse_never_raises (s : pystr) :
  (∃ r, parse_sensor_data s = Ok r)
  ∧ (∀ x, parse_try s = Raise x → parse_sensor_data s = Ok None)
  ∧ parse_sensor_data [] = Ok None
  ∧ (Forall (λ c, isspace c = true) s → parse_sensor_data s = Ok None)
  ∧ ((∃ t, t ∈ tokens s ∧ undecodable t) → parse_sensor_data s = Ok None).
Proof.
  pose proof (parse_try_raise float_of_str int_of_str) as Hraise.
  split; [|split; [|split; [|split]]].
  - unfold parse_sensor_data.
    destruct (parse_try s) as [[d|]|x] eqn:Hp; eauto.
    rewrite (Hraise s x Hp). eauto.
  - intros x Hx. unfold parse_sensor_data. rewrite Hx.
    by rewrite (Hraise s x Hx).
  - done.
  - intros Hsp. rewrite parse_sensor_data_unfold, (tokens_spaces s Hsp). done.
  - intros (t & Hin & Hbad). by apply (parse_undecodable s t).
Qed.

End LineParser.

(** ** Which tokens the parser looks at *)

Section Recognition.

Context {F : Type}.




End Recognition.

(** ** The parser on concrete lines *)

(** Evaluates the list [l] of a hypothesis [H : t ∈ l]. *)
Ltac eval_list_in H :=
  match type of H with
  | _ ∈ ?l => let l' := eval vm_compute in l in change l with l' in H
  end.

(** Closes [∀ t, t ∈ l → ¬ has_prefix k t] for a concrete list [l]. *)
Ltac no_token_of_key :=
  let t := fresh "t" in
  let Hin := fresh "Hin" in
  let v := fresh "v" in
  let Hv := fresh "Hv" in
  intros t Hin [v Hv]; eval_list_in Hin;
  repeat (apply elem_of_cons in Hin as [->|Hin]; [discriminate Hv|]);
  by apply elem_of_nil in Hin.

(** Closes [∀ t, t ∈ l → decodable fl il t] for a concrete list [l] by
    running the decoders. *)
Ltac all_decodable :=
  let t := fresh "t" in
  let Hin := fresh "Hin" in
  let k := fresh "k" in
  let v := fresh "v" in
  let Hv := fresh "Hv" in
  intros t Hin k v Hv; eval_list_in Hin;
  repeat (apply elem_of_cons in Hin as [->|Hin];
          [destruct k; try discriminate Hv; simpl in Hv; injection Hv as <-;
           vm_compute; eauto|]);
  by apply elem_of_nil in Hin.

(** Closes [t ∈ l] for a concrete token [t] of a concrete list [l]. *)
Ltac token_of_list :=
  vm_compute; repeat first [by left | right].

Lemma parse_reads_temp_and_hum_witness :
  (∃ d, parse_sensor_data ref_float ref_int
          (py "  junk HUM:60.2 temp:1   TEMP:23.5 STATUS:1 ") = Ok (Some d)
        ∧ d !! "temperature" = Some (VFloat (mkDec 235 1))
        ∧ d !! "humidity" = Some (VFloat (mkDec 602 1)))
  ∧ parse_sensor_data ref_float ref_int (py "TEMP:23.5 HUM:60.2 STATUS:1") =
      Ok (Some (<["status" := VInt 1]>
                  (<["humidity" := VFloat (mkDec 602 1)]>
                     (<["temperature" := VFloat (mkDec 235 1)]> ∅)))).
Proof.
  apply (parse_reads_temp_and_hum ref_float ref_int
           (py "  junk HUM:60.2 temp:1   TEMP:23.5 STATUS:1 ")
           [py "junk"; py "HUM:60.2"; py "temp:1"] [py "STATUS:1"]
           [py "junk"] [py "temp:1"; py "TEMP:23.5"; py "STATUS:1"]
           (py "23.5") (py "60.2")).
  - reflexivity.
  - no_token_of_key.
  - reflexivity.
  - no_token_of_key.
  - all_decodable.
  - reflexivity.
  - reflexivity.
Defined.

Lemma parse_rejects_missing_key_witness :
  parse_sensor_data ref_float ref_int (py "STATUS:1 HUM:60.2 TEMPERATURE:20")
    = Ok None
  ∧ parse_sensor_data ref_float ref_int (py "HUM:60.2") = Ok None.
Proof.
  apply (parse_rejects_missing_key ref_float ref_int).
  left. no_token_of_key.
Defined.

Lemma parse_rejects_undecodable_token_witness :
  parse_sensor_data ref_float ref_int (py "TEMP:23.5 HUM:60.2 STATUS:on")
    = Ok None
  ∧ (ref_float (py "abc") = None →
     parse_sensor_data ref_float ref_int (py "TEMP:abc HUM:60.2") = Ok None).
Proof.
  apply (parse_rejects_undecodable_token ref_float ref_int _ (py "STATUS:on")).
  - token_of_list.
  - exists KStatus, (py "on"). split; vm_compute; reflexivity.
Defined.

Lemma parse_last_occurrence_wins_witness :
  ∃ d x, parse_sensor_data ref_float ref_int
           (py "TEMP:1.5 HUM:40 TEMP:2.5 STATUS:0 STATUS:7 TEMP:3.5") = Ok (Some d)
         ∧ key_decode ref_float ref_int KTemp (py "3.5") = Some x
         ∧ d !! key_name KTemp = Some x.
Proof.
  apply (parse_last_occurrence_wins ref_float ref_int
           (py "TEMP:1.5 HUM:40 TEMP:2.5 STATUS:0 STATUS:7 TEMP:3.5") KTemp
           [py "TEMP:1.5"; py "HUM:40"; py "TEMP:2.5"; py "STATUS:0"; py "STATUS:7"]
           [] (py "3.5")).
  - all_decodable.
  - vm_compute. left. by exists (py "1.5").
  - vm_compute. right. left. by exists (py "40").
  - vm_compute; reflexivity.
  - no_token_of_key.
Defined.

Lemma parse_never_raises_witness :
  parse_sensor_data ref_float ref_int (py "TEMP:1e HUM:60.2") = Ok None.
Proof.
  apply (parse_never_raises ref_float ref_int (py "TEMP:1e HUM:60.2")).
  exists (py "TEMP:1e"). split; [token_of_list|].
  exists KTemp, (py "1e"). split; vm_compute; reflexivity.
Defined.


(** ** Reasoning about calls *)

Section CallFacts.

Context {F : Type}.

Local Abbreviation event := (@event F).
Local Abbreviation state := (@state F).
Local Abbreviation M := (@M F).

Implicit Types (P : event → Prop) (st : state).

Lemma M_bind_unfold {A B} (m : M A) (k : A → M B) st :
  (m ≫= k) st =
    match m st with
    | (Ok a, st') => k a st'
    | (Raise r, st') => (Raise r, st')
    end.
Proof. done. Qed.

Lemma steps_refl P st : steps P st false st.
Proof.
  exists []. rewrite app_nil_r. repeat split; [done|].
  destruct (pending_interrupt st) as [n|]; [|done].
  simpl. split; [lia|f_equal; lia].
Qed.

Lemma steps_trans P st st1 st2 (b : bool) :
  steps P st false st1 → steps P st1 b st2 → steps P st b st2.
Proof.
  intros (evs1 & HP1 & Ht1 & Hr1 & Hp1) (evs2 & HP2 & Ht2 & Hr2 & Hp2).
  exists (evs1 ++ evs2). rewrite length_app.
  split; [by apply Forall_app|].
  split; [by rewrite Ht2, Ht1, app_assoc|].
  split; [congruence|].
  destruct (pending_interrupt st) as [n|].
  - destruct Hp1 as [Hle Hp1]. rewrite Hp1 in Hp2.
    destruct b.
    + destruct Hp2 as [[= Hn] ->]. split; [f_equal; lia|done].
    + destruct Hp2 as [Hle2 ->]. split; [lia|f_equal; lia].
  - rewrite Hp1 in Hp2. by destruct b; [destruct Hp2|].
Qed.

Lemma steps_impl P P' st (b : bool) st' :
  (∀ e, P e → P' e) → steps P st b st' → steps P' st b st'.
Proof.
  intros HPP (evs & HP & H). exists evs.
  split; [|done]. by eapply Forall_impl.
Qed.

Lemma calls_conseq {A} P P' (Q Q' : res A → Prop) (m : M A) :
  (∀ e, P e → P' e) → (∀ r, Q r → Q' r) → calls P Q m → calls P' Q' m.
Proof.
  intros HP HQ Hm st. destruct (Hm st) as [Hs Hq].
  split; [by eapply steps_impl|auto].
Qed.

Lemma calls_ret {A} P (Q : res A → Prop) (a : A) :
  Q (Ok a) → calls P Q (mret a).
Proof. intros HQ st. split; [apply steps_refl|done]. Qed.

Lemma calls_raise {A} P (Q : res A → Prop) (e : exn) :
  Q (Raise (Exc e)) → calls P Q (raise (Exc e)).
Proof. intros HQ st. split; [apply steps_refl|done]. Qed.

Lemma calls_emit P (Q : res unit → Prop) (e : event) :
  P e → Q (Ok ()) → calls P Q (emit e).
Proof.
  intros HP HQ st. unfold emit.
  destruct (pending_interrupt st) as [[|n]|] eqn:Hp; simpl.
  - split; [|done]. exists []. rewrite app_nil_r, Hp. by repeat split.
  - split; [|done]. exists [e]. rewrite Hp. simpl.
    repeat split; [by apply Forall_singleton|lia|f_equal; lia].
  - split; [|done]. exists [e]. rewrite Hp.
    repeat split. by apply Forall_singleton.
Qed.

Lemma calls_bind {A B} P (Q1 : res A → Prop) (Q : res B → Prop)
    (m : M A) (k : A → M B) :
  calls P Q1 m →
  (∀ a, Q1 (Ok a) → calls P Q (k a)) →
  (∀ e, Q1 (Raise (Exc e)) → Q (Raise (Exc e))) →
  calls P Q (m ≫= k).
Proof.
  intros Hm Hk Hraise st. rewrite M_bind_unfold.
  destruct (Hm st) as [Hs Hq]. destruct (m st) as [[a|r] st1]; simpl in *.
  - destruct (Hk a (Hq eq_refl) st1) as [Hs' Hq'].
    split; [by eapply steps_trans|done].
  - split; [done|]. destruct r as [e|]; [|done]. auto.
Qed.

Lemma calls_call {A} P (Q : res A → Prop) (e : event) (ans : answer A) :
  P e →
  match ans with
  | Returns a => Q (Ok a)
  | Fails x => Q (Raise (Exc x))
  end →
  calls P Q (call e ans).
Proof.
  intros HP HQ. unfold call.
  apply (calls_bind P (λ r, r = Ok ())); [by apply calls_emit| |done].
  intros _ _. destruct ans; [by apply calls_ret|by apply calls_raise].
Qed.

Lemma calls_try {A} P (Q1 Q : res A → Prop) (body : M A)
    (clause : raised → bool) (handler : raised → M A) :
  clause KeyboardInterrupt = false →
  calls P Q1 body →
  (∀ a, Q1 (Ok a) → Q (Ok a)) →
  (∀ e, Q1 (Raise (Exc e)) →
        if clause (Exc e) then calls P Q (handler (Exc e))
        else Q (Raise (Exc e))) →
  calls P Q (try_except body clause handler).
Proof.
  intros Hc Hbody Hok Hexc st. unfold try_except.
  destruct (Hbody st) as [Hs Hq]. destruct (body st) as [[a|[e|]] st1]; simpl in *.
  - split; [done|auto].
  - specialize (Hexc e (Hq eq_refl)). destruct (clause (Exc e)).
    + destruct (Hexc st1) as [Hs' Hq']. split; [by eapply steps_trans|done].
    + split; done.
  - rewrite Hc. by split.
Qed.

Lemma calls_get_running P (Q : res bool → Prop) :
  (∀ b, Q (Ok b)) → calls P Q get_running.
Proof. intros HQ st. split; [apply steps_refl|intros _; apply HQ]. Qed.

Lemma calls_set_serial_conn P (Q : res unit → Prop) (c : option bool) :
  Q (Ok ()) → calls P Q (set_serial_conn c).
Proof.
  intros HQ st. split; [|done]. simpl.
  exists []. rewrite app_nil_r. split; [done|]. split; [done|]. split; [done|].
  destruct (pending_interrupt st); [|done]. simpl. split; [lia|f_equal; lia].
Qed.

(** [keeps_serial] under the same combinators. *)

Lemma keeps_ret {A} (a : A) : keeps_serial (F := F) (mret a).
Proof. done. Qed.

Lemma keeps_raise {A} (r : raised) : keeps_serial (F := F) (A := A) (raise r).
Proof. done. Qed.

Lemma keeps_emit (e : event) : keeps_serial (emit e).
Proof.
  intros st. unfold emit. by destruct (pending_interrupt st) as [[|n]|].
Qed.

Lemma keeps_bind {A B} (m : M A) (k : A → M B) :
  keeps_serial m → (∀ a, keeps_serial (k a)) → keeps_serial (m ≫= k).
Proof.
  intros Hm Hk st. rewrite M_bind_unfold. specialize (Hm st).
  destruct (m st) as [[a|r] st1]; simpl in *; [|done].
  by rewrite Hk.
Qed.

Lemma keeps_call {A} (e : event) (ans : answer A) : keeps_serial (call e ans).
Proof.
  apply keeps_bind; [apply keeps_emit|].
  intros _. destruct ans; [apply keeps_ret|apply keeps_raise].
Qed.

Lemma keeps_try {A} (body : M A) (clause : raised → bool)
    (handler : raised → M A) :
  keeps_serial body → (∀ r, keeps_serial (handler r)) →
  keeps_serial (try_except body clause handler).
Proof.
  intros Hb Hh st. unfold try_except. specialize (Hb st).
  destruct (body st) as [[a|r] st1]; simpl in *; [done|].
  destruct (clause r); [|done]. by rewrite Hh.
Qed.

Lemma keeps_get_running : keeps_serial (F := F) get_running.
Proof. done. Qed.

(** Membership of a kind in a concrete list, by evaluation. *)
Lemma of_kinds_intro (ks : list kind) (e : event) :
  bool_decide (kind_of e ∈ ks) = true → of_kinds ks e.
Proof. apply bool_decide_eq_true_1. Qed.

Lemma of_kinds_mono (ks ks' : list kind) (e : event) :
  ks ⊆ ks' → of_kinds ks e → of_kinds ks' e.
Proof. intros Hsub He. by apply Hsub. Qed.

End CallFacts.

Create HintDb calls discriminated.

#[export] Hint Resolve calls_ret calls_raise calls_emit calls_call
  calls_get_running calls_set_serial_conn : calls.
#[export] Hint Resolve keeps_ret keeps_raise keeps_emit keeps_call
  keeps_get_running : calls.
#[export] Hint Extern 1 (of_kinds _ _) =>
  apply of_kinds_intro; vm_compute; reflexivity : calls.
#[export] Hint Extern 1 (returns _) => eexists; reflexivity : calls.

Section CallModes.

Context {F : Type}.

Local Abbreviation event := (@event F).
Local Abbreviation M := (@M F).

Implicit Types (P : event → Prop).

(** Inside a [try]: whatever the steps raise or return. *)
Lemma calls_bind_any {A B} P (m : M A) (k : A → M B) :
  calls P (λ _, True) m →
  (∀ a, calls P (λ _, True) (k a)) →
  calls P (λ _, True) (m ≫= k).
Proof. intros Hm Hk. apply (calls_bind P (λ _, True)); auto. Qed.

(** Outside: each step returns. *)
Lemma calls_bind_returns {A B} P (m : M A) (k : A → M B) :
  calls P returns m →
  (∀ a, calls P returns (k a)) →
  calls P returns (m ≫= k).
Proof.
  intros Hm Hk. apply (calls_bind P returns); auto.
  intros e [a Ha]. discriminate Ha.
Qed.

(** [try: body except Exception: handler] returns when its handler does. *)
Lemma calls_try_Exception {A} P (body : M A) (handler : raised → M A) :
  calls P (λ _, True) body →
  (∀ r, calls P returns (handler r)) →
  calls P returns (try_except body is_Exception handler).
Proof.
  intros Hb Hh. apply (calls_try P (λ _, True)); [done|done| |].
  - intros a _. by exists a.
  - intros e _. simpl. apply Hh.
Qed.

End CallModes.

(** Runs a computation on a state whose pending interrupt is known. *)
Ltac run_M :=
  unfold try_except, call, raise, set_serial_conn, set_running,
    get_serial_conn, get_running, emit,
    mbind, M_mbind, M_bind, mret, M_mret, M_ret;
  simpl.

(** Closes an inclusion between two concrete lists of kinds. *)
Ltac kinds_incl :=
  let k := fresh "k" in
  intros k; rewrite !elem_of_cons, !elem_of_nil; tauto.

(** Splits a computation into its steps and closes each step from the hint
    database; case distinctions of the code are followed. *)
Ltac calls_steps :=
  repeat first
    [ solve [eauto with calls]
    | apply calls_try_Exception
    | apply calls_bind_returns
    | apply calls_bind_any
    | apply keeps_try
    | apply keeps_bind
    | progress intros
    | match goal with
      | |- calls _ _ (match ?x with _ => _ end) => destruct x
      | |- calls _ _ (if ?x then _ else _) => destruct x
      | |- keeps_serial (match ?x with _ => _ end) => destruct x
      | |- keeps_serial (if ?x then _ else _) => destruct x
      end ].

Section CollectorFacts.

Context {F : Type}.
Variable float_of_str : pystr → option F.
Variable int_of_str : pystr → option Z.
Variable json_dumps : json (F := F) → pystr.

Local Abbreviation event := (@event F).
Local Abbreviation state := (@state F).
Local Abbreviation parse_sensor_data_call :=
  (parse_sensor_data_call float_of_str int_of_str).
Local Abbreviation publish_data := (publish_data json_dumps).
Local Abbreviation read_response :=
  (read_response float_of_str int_of_str json_dumps).
Local Abbreviation cycle_body :=
  (cycle_body float_of_str int_of_str json_dumps).
Local Abbreviation poll_loop := (poll_loop float_of_str int_of_str json_dumps).
Local Abbreviation run := (run float_of_str int_of_str json_dumps).

(** The kinds of call made while the collector works. *)
Local Abbreviation working := [KOpen; KConnect; KPoll; KSleep; KLog].

Lemma request_sensor_reading_calls (c : cycle_world) :
  calls (of_kinds [KPoll; KLog]) returns (request_sensor_reading (F := F) c).
Proof. unfold request_sensor_reading. calls_steps. Qed.

Lemma read_sensor_data_calls (c : cycle_world) :
  calls (of_kinds [KPoll; KLog]) returns (read_sensor_data (F := F) c).
Proof. unfold read_sensor_data. calls_steps. Qed.

Lemma getitem_calls P (d : gmap string (value F)) (k : string) :
  calls P (λ _, True) (getitem d k).
Proof. unfold getitem. calls_steps. Qed.

Lemma publish_data_calls (c : cycle_world) (d : gmap string (value F)) :
  calls (of_kinds [KPoll; KLog]) returns (publish_data c d).
Proof.
  unfold publish_data. pose proof getitem_calls. calls_steps.
Qed.

Lemma parse_sensor_data_call_calls (s : pystr) :
  calls (of_kinds [KPoll; KLog]) returns (parse_sensor_data_call s).
Proof.
  unfold parse_sensor_data_call.
  destruct (parse_try _ _ s) as [o|r] eqn:Hp.
  - calls_steps.
  - apply parse_try_raise in Hp as ->. simpl. calls_steps.
Qed.

(** Uninterrupted, the call returns what [parse_sensor_data] returns. *)
Lemma parse_sensor_data_call_value (s : pystr) (st : state) :
  pending_interrupt st = None →
  (parse_sensor_data_call s st).1 = parse_sensor_data float_of_str int_of_str s.
Proof.
  intros Hp. unfold parse_sensor_data_call, parse_sensor_data.
  destruct (parse_try _ _ s) as [[d|]|r] eqn:Hs; [done|done|].
  apply parse_try_raise in Hs as ->. run_M. by rewrite Hp.
Qed.

Lemma read_response_calls (c : cycle_world) :
  calls (of_kinds [KPoll; KSleep; KLog]) returns (read_response c).
Proof.
  assert (Hsub : ∀ e : event, of_kinds [KPoll; KLog] e
                              → of_kinds [KPoll; KSleep; KLog] e).
  { intros e. apply of_kinds_mono. kinds_incl. }
  pose proof (λ c, calls_conseq _ _ _ _ _ Hsub (λ r H, H)
                     (request_sensor_reading_calls c)) as H1.
  pose proof (λ c, calls_conseq _ _ _ _ _ Hsub (λ r H, H)
                     (read_sensor_data_calls c)) as H2.
  pose proof (λ s, calls_conseq _ _ _ _ _ Hsub (λ r H, H)
                     (parse_sensor_data_call_calls s)) as H3.
  pose proof (λ c d, calls_conseq _ _ _ _ _ Hsub (λ r H, H)
                       (publish_data_calls c d)) as H4.
  unfold read_response. calls_steps.
Qed.

Lemma cycle_body_calls (c : cycle_world) :
  calls (of_kinds [KPoll; KSleep; KLog]) returns (cycle_body c).
Proof.
  pose proof read_response_calls. unfold cycle_body. calls_steps.
Qed.

Lemma poll_loop_0 (w : world) (i : nat) :
  poll_loop w 0 i =
    get_running ≫= λ go : bool,
      if go then mret StillRunning else mret Finished.
Proof. done. Qed.

Lemma poll_loop_S (w : world) (fuel i : nat) :
  poll_loop w (S fuel) i =
    get_running ≫= λ go : bool,
      if go then cycle_body (cycle w i);; poll_loop w fuel (S i)
      else mret Finished.
Proof. done. Qed.

Lemma poll_loop_calls (w : world) (fuel i : nat) :
  calls (of_kinds [KPoll; KSleep; KLog]) returns (poll_loop w fuel i).
Proof.
  revert i. induction fuel as [|fuel IH]; intros i.
  - rewrite poll_loop_0. calls_steps.
  - rewrite poll_loop_S. pose proof cycle_body_calls. calls_steps.
Qed.

Lemma getitem_keeps (d : gmap string (value F)) (k : string) :
  keeps_serial (getitem d k).
Proof. unfold getitem. destruct (d !! k); calls_steps. Qed.

Lemma cycle_body_keeps (c : cycle_world) : keeps_serial (cycle_body c).
Proof.
  pose proof getitem_keeps.
  assert (∀ s, keeps_serial (parse_sensor_data_call s)).
  { intros s. unfold parse_sensor_data_call.
    destruct (parse_try _ _ s) as [o|r]; calls_steps. }
  unfold cycle_body, read_response, request_sensor_reading,
    read_sensor_data, publish_data.
  calls_steps.
Qed.

Lemma poll_loop_keeps (w : world) (fuel i : nat) :
  keeps_serial (poll_loop w fuel i).
Proof.
  revert i. induction fuel as [|fuel IH]; intros i.
  - rewrite poll_loop_0. calls_steps.
  - rewrite poll_loop_S. pose proof cycle_body_keeps. calls_steps.
Qed.

End CollectorFacts.

(** ** The publisher: properties *)

Section Publisher.

Context {F : Type}.
Variable json_dumps : json (F := F) → pystr.

Local Abbreviation event := (@event F).
Local Abbreviation state := (@state F).
Local Abbreviation publish_data := (publish_data json_dumps).

(** [publish_data] reads its argument at two keys only. *)
Lemma publish_data_ext (c : cycle_world) (d1 d2 : gmap string (value F)) :
  d1 !! "temperature" = d2 !! "temperature" →
  d1 !! "humidity" = d2 !! "humidity" →
  publish_data c d1 = publish_data c d2.
Proof.
  intros Ht Hh. unfold publish_data, getitem. by rewrite Ht, Hh.
Qed.

Lemma getitem_result (P : event → Prop) (d : gmap string (value F))
    (k : string) :
  calls P (λ r, ∀ v, r = Ok v → d !! k = Some v) (getitem d k).
Proof.
  unfold getitem. destruct (d !! k) as [v|].
  - apply calls_ret. by intros v' [= ->].
  - by apply calls_raise.
Qed.

Lemma reading_call_calls (c : cycle_world) (d : gmap string (value F)) :
  calls (reading_call json_dumps (now_isoformat c) d) (λ _, True)
    (publish_data c d).
Proof.
  unfold publish_data.
  apply (calls_try _ (λ _, True)); [done| |done|].
  - apply calls_bind_any; [by apply calls_emit|]. intros _.
    eapply calls_bind; [apply getitem_result| |done].
    intros t Ht. specialize (Ht t eq_refl).
    apply calls_bind_any.
    { apply calls_emit; [|done]. exists "temperature", t, unit_celsius. auto. }
    intros _. eapply calls_bind; [apply getitem_result| |done].
    intros h Hh. specialize (Hh h eq_refl).
    apply calls_bind_any.
    { apply calls_emit; [|done]. exists "humidity", h, unit_percent. auto. }
    intros _.
    apply calls_bind_any; [eapply calls_conseq, getitem_result; done|].
    intros t'.
    apply calls_bind_any; [eapply calls_conseq, getitem_result; done|].
    intros h'. by apply calls_emit.
  - intros e _. simpl. by apply calls_emit.
Qed.

(** C4. For every reading with a temperature and a humidity entry, one
    uninterrupted call of [publish_data] reads the clock once and makes
    exactly two publishes, in this order: to the temperature topic the dump
    of [{value: temperature, timestamp, unit: "°C"}] and to the humidity
    topic the dump of [{value: humidity, timestamp, unit: "%"}], both with
    the timestamp of that one clock read; then it logs and returns. *)
Theorem publish_data_two_messages (c : cycle_world)
    (d : gmap string (value F)) (t h : value F) (st : state) :
  d !! "temperature" = Some t →
  d !! "humidity" = Some h →
  no_interrupt_within 4 st →
  publish_data c d st
    = (Ok (), after_calls (publish_calls json_dumps (now_isoformat c) t h) st)
  ∧ List.filter is_publish (publish_calls json_dumps (now_isoformat c) t h)
    = reading_messages json_dumps (now_isoformat c) t h
  ∧ List.filter is_clock (publish_calls json_dumps (now_isoformat c) t h)
    = [ClockNow].
Proof.
  intros Ht Hh Hp. split; [|done].
  unfold publish_data, getitem. rewrite Ht, Hh.
  destruct st as [sc rn tr [n|]]; unfold no_interrupt_within in Hp;
    simpl in Hp.
  - do 4 (destruct n as [|n]; [lia|]).
    unfold after_calls. run_M. rewrite Nat.sub_0_r.
    by rewrite <-!app_assoc.
  - unfold after_calls. run_M. by rewrite <-!app_assoc.
Qed.

(** C9. The status entry of a reading has no influence on what
    [publish_data] does: two readings with the same temperature and
    humidity entries, whatever their status entries, give the same calls,
    result and final state; setting or deleting the status changes nothing;
    and every payload published is the dump of an object with the fields
    [value], [timestamp] and [unit] only, the value being the temperature or
    the humidity entry. *)
Theorem publish_data_ignores_status (c : cycle_world)
    (d1 d2 : gmap string (value F)) (st : state) :
  d1 !! "temperature" = d2 !! "temperature" →
  d1 !! "humidity" = d2 !! "humidity" →
  publish_data c d1 st = publish_data c d2 st
  ∧ (∀ v, publish_data c (<["status" := v]> d1) st = publish_data c d1 st)
  ∧ publish_data c (delete "status" d1) st = publish_data c d1 st
  ∧ ∃ evs, trace (publish_data c d1 st).2 = trace st ++ evs
           ∧ Forall (reading_call json_dumps (now_isoformat c) d1) evs.
Proof.
  intros Ht Hh. split; [|split; [|split]].
  - by rewrite (publish_data_ext c d1 d2).
  - intros v. rewrite (publish_data_ext c (<["status":=v]> d1) d1); [done| |];
      by rewrite lookup_insert_ne.
  - rewrite (publish_data_ext c (delete "status" d1) d1); [done| |];
      by rewrite lookup_delete_ne.
  - destruct (reading_call_calls c d1 st) as [(evs & Hevs & Htr & _) _].
    by exists evs.
Qed.

End Publisher.

Lemma publish_data_two_messages_witness :
  publish_data ref_dumps (steady_cycle [] (py "2024-05-01T12:00:00"))
    (<["status" := VInt 1]>
       (<["humidity" := VFloat (mkDec 602 1)]>
          (<["temperature" := VFloat (mkDec 235 1)]> ∅)))
    (init_state (Some 7))
  = (Ok (),
     after_calls
       (publish_calls ref_dumps (py "2024-05-01T12:00:00")
          (VFloat (mkDec 235 1)) (VFloat (mkDec 602 1)))
       (init_state (Some 7))).
Proof.
  apply (publish_data_two_messages ref_dumps
           (steady_cycle [] (py "2024-05-01T12:00:00")) _
           (VFloat (mkDec 235 1)) (VFloat (mkDec 602 1)) (init_state (Some 7))).
  - vm_compute; reflexivity.
  - vm_compute; reflexivity.
  - unfold no_interrupt_within. simpl. lia.
Defined.

Lemma publish_data_ignores_status_witness :
  publish_data ref_dumps (steady_cycle [] (py "2024-05-01T12:00:00"))
    (<["status" := VInt 1]>
       (<["humidity" := VFloat (mkDec 602 1)]>
          (<["temperature" := VFloat (mkDec 235 1)]> ∅)))
    (init_state None)
  = publish_data ref_dumps (steady_cycle [] (py "2024-05-01T12:00:00"))
      (<["humidity" := VFloat (mkDec 602 1)]>
         (<["temperature" := VFloat (mkDec 235 1)]> ∅))
      (init_state None).
Proof.
  refine (proj1 (publish_data_ignores_status ref_dumps
                   (steady_cycle [] (py "2024-05-01T12:00:00"))
                   (<["status" := VInt 1]>
                      (<["humidity" := VFloat (mkDec 602 1)]>
                         (<["temperature" := VFloat (mkDec 235 1)]> ∅)))
                   (<["humidity" := VFloat (mkDec 602 1)]>
                      (<["temperature" := VFloat (mkDec 235 1)]> ∅))
                   (init_state None) _ _)).
  - vm_compute; reflexivity.
  - vm_compute; reflexivity.
Defined.

(** ** The run loop: setup, polling, shutdown *)

Section RunLoop.

Context {F : Type}.
Variable float_of_str : pystr → option F.
Variable int_of_str : pystr → option Z.
Variable json_dumps : json (F := F) → pystr.

Local Abbreviation event := (@event F).
Local Abbreviation state := (@state F).
Local Abbreviation M := (@M F).
Local Abbreviation cycle_body :=
  (cycle_body float_of_str int_of_str json_dumps).
Local Abbreviation read_response :=
  (read_response float_of_str int_of_str json_dumps).
Local Abbreviation poll_loop := (poll_loop float_of_str int_of_str json_dumps).
Local Abbreviation run := (run float_of_str int_of_str json_dumps).
Local Abbreviation working := [KOpen; KConnect; KPoll; KSleep; KLog].

(** A step that returns, followed by any continuation. *)
Lemma calls_bind_seq {A B} (P : event → Prop) (Q : res B → Prop)
    (m : M A) (k : A → M B) :
  calls P returns m → (∀ a, calls P Q (k a)) → calls P Q (m ≫= k).
Proof.
  intros Hm Hk. apply (calls_bind P returns); auto.
  intros e [a Ha]. discriminate Ha.
Qed.

(** *** Setup *)

Lemma setup_uart_calls (w : world) :
  calls (of_kinds [KOpen; KLog]) (setup_uart_result w) (setup_uart (F := F) w).
Proof.
  unfold setup_uart, setup_uart_result.
  destruct (uart_open_answer w) as [[]|e].
  - apply (calls_try _ (λ r, r = Ok true)); [done| |done|done].
    repeat (apply calls_bind_seq; [calls_steps|intros _]).
    by apply calls_ret.
  - apply (calls_try _ (λ r, r = Raise (Exc e))); [done| |done|].
    + eapply (calls_bind _ (λ r, r = Raise (Exc e))); [|done|by intros ? [= ->]].
      apply calls_call; [calls_steps|done].
    + intros e' [= ->]. destruct e; simpl; try done.
      apply calls_bind_seq; [calls_steps|intros _]. by apply calls_ret.
Qed.

Lemma setup_uart_serial (w : world) (st : state) :
  (setup_uart w st).1 = Ok true →
  serial_conn (setup_uart w st).2 = Some true.
Proof.
  unfold setup_uart. destruct st as [sc rn tr p].
  destruct (uart_open_answer w) as [[]|e];
    destruct p as [[|[|n]]|]; run_M; try done;
    destruct e; run_M; done.
Qed.

Lemma setup_mqtt_calls (w : world) :
  calls (of_kinds [KConnect; KLog]) (setup_mqtt_result w)
    (setup_mqtt (F := F) w).
Proof.
  unfold setup_mqtt, setup_mqtt_result.
  destruct (mqtt_connect_answer w) as [[]|e].
  - destruct (mqtt_loop_start_answer w) as [[]|e].
    + apply (calls_try _ (λ r, r = Ok true)); [done| |done|done].
      repeat (apply calls_bind_seq; [calls_steps|intros _]).
      by apply calls_ret.
    + apply (calls_try _ (λ r, r = Raise (Exc e))); [done| |done|].
      * apply calls_bind_seq; [calls_steps|intros _].
        eapply (calls_bind _ (λ r, r = Raise (Exc e))); [|done|by intros ? [= ->]].
        apply calls_call; [calls_steps|done].
      * intros e' [= ->]. simpl.
        apply calls_bind_seq; [calls_steps|intros _]. by apply calls_ret.
  - apply (calls_try _ (λ r, r = Raise (Exc e))); [done| |done|].
    + eapply (calls_bind _ (λ r, r = Raise (Exc e))); [|done|by intros ? [= ->]].
      apply calls_call; [calls_steps|done].
    + intros e' [= ->]. simpl.
      apply calls_bind_seq; [calls_steps|intros _]. by apply calls_ret.
Qed.

Lemma setup_mqtt_keeps (w : world) : keeps_serial (setup_mqtt (F := F) w).
Proof. unfold setup_mqtt. calls_steps. Qed.

(** *** Shutdown *)

(** The interrupt handler of [run] on an open port, the one interrupt
    having been consumed. *)
Lemma handler_tears_down (st : state) :
  pending_interrupt st = None →
  serial_conn st = Some true →
  (emit (Log INFO "Stopping sensor collector..." []);; stop;; mret Finished) st
    = (Ok Finished, mkState (Some false) false (trace st ++ teardown) None).
Proof.
  destruct st as [sc rn tr p]. simpl. intros -> ->.
  unfold stop. run_M. by rewrite <-!app_assoc.
Qed.

Lemma outcome_of_calls (Q : res completion → Prop) (ks : list kind)
    (m : M completion) (st : state) :
  ks ⊆ working → calls (of_kinds ks) Q m → run_outcome st (m st).
Proof.
  intros Hks Hm. left. destruct (Hm st) as [Hs _].
  eapply steps_impl; [|done]. intros e. by apply of_kinds_mono.
Qed.

Lemma outcome_bind {A} (Q : res A → Prop) (ks : list kind) (m : M A)
    (k : A → M completion) (st : state) :
  ks ⊆ working →
  calls (of_kinds ks) Q m →
  (∀ a, (m st).1 = Ok a → run_outcome (m st).2 (k a (m st).2)) →
  run_outcome st ((m ≫= k) st).
Proof.
  intros Hks Hm Hk. rewrite M_bind_unfold.
  destruct (Hm st) as [Hs _].
  apply (steps_impl _ (of_kinds working)) in Hs;
    [|intros e; by apply of_kinds_mono].
  destruct (m st) as [[a|r] st1]; simpl in *.
  - destruct (Hk a eq_refl) as [H|(st2 & H & ->)].
    + left. by eapply steps_trans.
    + right. exists st2. split; [by eapply steps_trans|done].
  - by left.
Qed.

Lemma loop_outcome (w : world) (fuel : nat) (st : state) :
  serial_conn st = Some true →
  run_outcome st
    (try_except (poll_loop w fuel 0) is_KeyboardInterrupt
       (λ _, emit (Log INFO "Stopping sensor collector..." []);;
             stop;; mret Finished) st).
Proof.
  intros Hsc. unfold try_except.
  destruct (poll_loop_calls float_of_str int_of_str json_dumps w fuel 0 st)
    as [Hs _].
  pose proof (poll_loop_keeps float_of_str int_of_str json_dumps w fuel 0 st)
    as Hk.
  apply (steps_impl _ (of_kinds working)) in Hs;
    [|intros e; apply of_kinds_mono; kinds_incl].
  destruct (poll_loop w fuel 0 st) as [[a|[e|]] st1]; simpl in *.
  - by left.
  - by left.
  - right. exists st1. split; [done|].
    destruct Hs as (evs & _ & _ & _ & _ & Hp).
    apply handler_tears_down; [done|congruence].
Qed.

(** Every run ends in one of the two ways of [run_outcome]. *)
Lemma run_has_outcome (w : world) (fuel : nat) (st : state) :
  run_outcome st (run w fuel st).
Proof.
  unfold run.
  eapply (outcome_bind returns [KLog]); [kinds_incl|calls_steps|].
  intros _ _. set (st1 := (emit _ st).2). clearbody st1.
  eapply (outcome_bind _ [KOpen; KLog]);
    [kinds_incl|apply setup_uart_calls|].
  intros ok Hok. pose proof (setup_uart_serial w st1) as Hsc.
  rewrite Hok in Hsc. set (st2 := (setup_uart w st1).2) in *. clearbody st2.
  destruct ok; simpl.
  - specialize (Hsc eq_refl).
    eapply (outcome_bind _ [KConnect; KLog]);
      [kinds_incl|apply setup_mqtt_calls|].
    intros ok' _. pose proof (setup_mqtt_keeps w st2) as Hk2.
    set (st3 := (setup_mqtt w st2).2) in *. clearbody st3.
    destruct ok'; simpl.
    + eapply (outcome_bind returns [KSleep]); [kinds_incl|calls_steps|].
      intros _ _. pose proof (keeps_emit (F := F) (Sleep 2) st3) as Hk3.
      set (st4 := (emit (Sleep 2) st3).2) in *. clearbody st4.
      eapply (outcome_bind returns [KLog]); [kinds_incl|calls_steps|].
      intros _ _.
      match goal with
      | |- run_outcome (emit ?e st4).2 _ =>
          pose proof (keeps_emit (F := F) e st4) as Hk4
      end.
      apply loop_outcome. congruence.
    + eapply (outcome_of_calls returns [KLog]); [kinds_incl|calls_steps].
  - eapply (outcome_of_calls returns [KLog]); [kinds_incl|calls_steps].
Qed.

End RunLoop.

Section RunClaims.

Context {F : Type}.
Variable float_of_str : pystr → option F.
Variable int_of_str : pystr → option Z.
Variable json_dumps : json (F := F) → pystr.

Local Abbreviation event := (@event F).
Local Abbreviation state := (@state F).
Local Abbreviation M := (@M F).
Local Abbreviation cycle_body :=
  (cycle_body float_of_str int_of_str json_dumps).
Local Abbreviation read_response :=
  (read_response float_of_str int_of_str json_dumps).
Local Abbreviation poll_loop := (poll_loop float_of_str int_of_str json_dumps).
Local Abbreviation run := (run float_of_str int_of_str json_dumps).
Local Abbreviation working := [KOpen; KConnect; KPoll; KSleep; KLog].

(** *** Failing setup *)

Lemma run_uart_fails (w : world) (fuel : nat) (e : exn) :
  uart_open_answer w = Fails e →
  calls (of_kinds [KOpen; KLog]) (λ r, r ≠ Ok StillRunning) (run w fuel).
Proof.
  intros Hw. unfold run.
  apply calls_bind_seq; [calls_steps|intros _].
  eapply calls_bind; [apply setup_uart_calls| |done].
  intros ok Hok. unfold setup_uart_result in Hok. rewrite Hw in Hok.
  assert (ok = false) as -> by (destruct e; congruence). simpl.
  apply calls_bind_seq; [calls_steps|intros _]. by apply calls_ret.
Qed.

Lemma run_mqtt_fails (w : world) (fuel : nat) (e : exn) :
  uart_open_answer w = Returns () →
  mqtt_connect_answer w = Fails e ∨ mqtt_loop_start_answer w = Fails e →
  calls (of_kinds [KOpen; KConnect; KLog]) (λ r, r ≠ Ok StillRunning)
    (run w fuel).
Proof.
  intros Hu Hm. unfold run.
  apply calls_bind_seq; [calls_steps|intros _].
  eapply calls_bind; [|intros ok Hok|done].
  { eapply calls_conseq, setup_uart_calls; [|done].
    intros ev. apply of_kinds_mono. kinds_incl. }
  unfold setup_uart_result in Hok. rewrite Hu in Hok.
  injection Hok as ->. simpl.
  eapply calls_bind; [|intros ok Hok|done].
  { eapply calls_conseq, setup_mqtt_calls; [|done].
    intros ev. apply of_kinds_mono. kinds_incl. }
  assert (ok = false) as ->.
  { unfold setup_mqtt_result in Hok.
    destruct Hm as [Hm|Hm]; rewrite Hm in Hok;
      destruct (mqtt_connect_answer w); congruence. }
  simpl. apply calls_bind_seq; [calls_steps|intros _]. by apply calls_ret.
Qed.

Lemma calls_from_init {A} (P : event → Prop) (Q : res A → Prop) (m : M A)
    (p : option nat) :
  calls P Q m →
  Forall P (trace (m (init_state p)).2)
  ∧ running (m (init_state p)).2 = true
  ∧ (interrupted (m (init_state p)).1 = false → Q (m (init_state p)).1).
Proof.
  intros Hm. destruct (Hm (init_state p)) as [(evs & HP & Ht & Hr & _) HQ].
  rewrite Ht, Hr. done.
Qed.

(** C6. If opening the serial port fails, [run] makes no call to the bus
    client at all (no connect, no loop start), no call of the poll cycle and
    no wait: besides logging it makes the one attempt to open the port, and
    it ends without entering the loop, for every bound on the loop and
    wherever an interrupt falls. If the port opens and the bus connect (or
    the start of its network loop) fails, [run] likewise ends without any
    call of the poll cycle and without a wait. Without an interrupt both
    runs return, having logged the failure. *)
Theorem setup_failure_aborts (w : world) (fuel : nat) (p : option nat)
    (e : exn) :
  (uart_open_answer w = Fails e →
     (run w fuel (init_state p)).1 ≠ Ok StillRunning
     ∧ Forall (of_kinds [KOpen; KLog]) (trace (run w fuel (init_state p)).2)
     ∧ running (run w fuel (init_state p)).2 = true)
  ∧ (uart_open_answer w = Returns () →
     mqtt_connect_answer w = Fails e ∨ mqtt_loop_start_answer w = Fails e →
     (run w fuel (init_state p)).1 ≠ Ok StillRunning
     ∧ Forall (of_kinds [KOpen; KConnect; KLog])
         (trace (run w fuel (init_state p)).2)
     ∧ running (run w fuel (init_state p)).2 = true)
  ∧ (uart_open_answer w = Fails SerialException →
     run w fuel (init_state None)
     = (Ok Finished,
        mkState None true
          [ Log INFO "Starting sensor data collector..." [];
            SerialOpen UART_PORT BAUD_RATE 1;
            Log ERROR "Failed to open UART port: {e}" [AExn SerialException];
            Log ERROR "Failed to setup UART" [] ]
          None))
  ∧ (uart_open_answer w = Returns () →
     mqtt_connect_answer w = Fails e →
     run w fuel (init_state None)
     = (Ok Finished,
        mkState (Some true) true
          [ Log INFO "Starting sensor data collector..." [];
            SerialOpen UART_PORT BAUD_RATE 1;
            Log INFO "UART connection established on {UART_PORT}"
              [AStr UART_PORT];
            MqttConnect MQTT_BROKER MQTT_PORT 60;
            Log ERROR "Failed to setup MQTT: {e}" [AExn e];
            Log ERROR "Failed to setup MQTT" [] ]
          None)).
Proof.
  split; [|split; [|split]].
  - intros Hw.
    destruct (calls_from_init _ _ _ p (run_uart_fails w fuel e Hw))
      as (Ht & Hr & HQ).
    split; [|done].
    destruct (run w fuel (init_state p)).1 as [[]|[]] eqn:Hres;
      try done. by apply HQ.
  - intros Hu Hm.
    destruct (calls_from_init _ _ _ p (run_mqtt_fails w fuel e Hu Hm))
      as (Ht & Hr & HQ).
    split; [|done].
    destruct (run w fuel (init_state p)).1 as [[]|[]] eqn:Hres;
      try done. by apply HQ.
  - intros Hw. unfold run, setup_uart. rewrite Hw. by run_M.
  - intros Hu Hm. unfold run, setup_uart, setup_mqtt. rewrite Hu, Hm.
    by run_M.
Qed.

(** *** Shutdown *)

(** A cycle that completes uses up part of the time left before the
    interrupt. *)
Lemma cycle_body_progress (c : cycle_world) (st : state) (n : nat) :
  pending_interrupt st = Some n →
  match cycle_body c st with
  | (Ok _, st1) =>
      running st1 = running st
      ∧ ∃ n', pending_interrupt st1 = Some n' ∧ n' < n
  | (Raise (Exc _), _) => False
  | (Raise KeyboardInterrupt, _) => True
  end.
Proof.
  intros Hp. unfold cycle_body. rewrite M_bind_unfold.
  destruct (request_sensor_reading_calls (F := F) c st)
    as [(evs1 & _ & _ & Hr1 & Hp1) Hq1].
  destruct (request_sensor_reading c st) as [[[]|[e|]] st1]; simpl in *;
    [|by destruct (Hq1 eq_refl)|done].
  rewrite Hp in Hp1. destruct Hp1 as [Hle1 Hp1].
  rewrite M_bind_unfold. unfold emit at 1. rewrite Hp1.
  destruct (n - length evs1) as [|m] eqn:Hm; [done|].
  rewrite M_bind_unfold.
  destruct (read_response_calls float_of_str int_of_str json_dumps c
              (mkState (serial_conn st1) (running st1)
                 (trace st1 ++ [Sleep 1]) (Some m)))
    as [(evs3 & _ & _ & Hr3 & Hp3) Hq3].
  destruct (read_response c _) as [[[]|[e|]] st3]; simpl in *;
    [|by destruct (Hq3 eq_refl)|done].
  destruct Hp3 as [Hle3 Hp3]. unfold emit. rewrite Hp3.
  destruct (m - length evs3) as [|m'] eqn:Hm'; [done|]. simpl.
  split; [congruence|]. exists m'. split; [done|lia].
Qed.

(** With the interrupt due in less calls than the loop is unfolded, the
    loop is left by the interrupt. *)
Lemma poll_loop_interrupted (w : world) (fuel i : nat) (st : state) (n : nat) :
  running st = true →
  pending_interrupt st = Some n →
  n < fuel →
  (poll_loop w fuel i st).1 = Raise KeyboardInterrupt.
Proof.
  revert i st n. induction fuel as [|fuel IH]; intros i st n Hr Hp Hn; [lia|].
  rewrite poll_loop_S, M_bind_unfold. simpl. rewrite Hr.
  rewrite M_bind_unfold.
  pose proof (cycle_body_progress (cycle w i) st n Hp) as Hc.
  destruct (cycle_body (cycle w i) st) as [[[]|[e|]] st1]; [|done|done].
  destruct Hc as (Hr1 & n' & Hp1 & Hlt).
  apply (IH (S i) st1 n'); [congruence|done|lia].
Qed.

(** The calls of a run whose setup succeeds, up to the loop. *)
Lemma run_startup (w : world) (fuel m : nat) :
  uart_open_answer w = Returns () →
  mqtt_connect_answer w = Returns () →
  mqtt_loop_start_answer w = Returns () →
  run w fuel (init_state (Some (8 + m)))
  = try_except (poll_loop w fuel 0) is_KeyboardInterrupt
      (λ _, emit (Log INFO "Stopping sensor collector..." []);;
            stop;; mret Finished)
      (mkState (Some true) true startup (Some m)).
Proof.
  intros Hu Hc Hl. unfold run, setup_uart, setup_mqtt.
  rewrite Hu, Hc, Hl.
  unfold call, raise, set_serial_conn, emit, init_state,
    mbind, M_mbind, M_bind, mret, M_mret, M_ret.
  simpl. done.
Qed.

End RunClaims.

Section Shutdown.

Context {F : Type}.
Variable float_of_str : pystr → option F.
Variable int_of_str : pystr → option Z.
Variable json_dumps : json (F := F) → pystr.

Local Abbreviation event := (@event F).
Local Abbreviation state := (@state F).
Local Abbreviation poll_loop := (poll_loop float_of_str int_of_str json_dumps).
Local Abbreviation run := (run float_of_str int_of_str json_dumps).
Local Abbreviation working := [KOpen; KConnect; KPoll; KSleep; KLog].

Lemma filter_teardown_working (evs : list event) :
  Forall (of_kinds working) evs → List.filter is_teardown evs = [].
Proof.
  induction 1 as [|e evs He _ IH]; simpl; [done|].
  rewrite IH. unfold is_teardown. rewrite bool_decide_eq_false_2; [done|].
  intros Hk. unfold of_kinds in He. rewrite Hk in He.
  rewrite !elem_of_cons, elem_of_nil in He. intuition discriminate.
Qed.

(** The loop on a false run flag: it ends at once and makes no call. *)
Lemma poll_loop_flag_false (w : world) (fuel i : nat) (st : state) :
  running st = false → poll_loop w fuel i st = (Ok Finished, st).
Proof.
  intros Hr. destruct fuel; [rewrite poll_loop_0|rewrite poll_loop_S];
    rewrite M_bind_unfold; simpl; by rewrite Hr.
Qed.

(** An interrupt due within the calls of the startup leaves the run flag
    alone, whatever the libraries answer. *)
Lemma run_flag_kept_during_startup (w : world) (fuel n : nat) :
  n < 8 → running (run w fuel (init_state (Some n))).2 = true.
Proof.
  intros Hn. unfold run, setup_uart, setup_mqtt.
  destruct (uart_open_answer w) as [[]|e];
    [destruct (mqtt_connect_answer w) as [[]|e'];
     [destruct (mqtt_loop_start_answer w) as [[]|e'']|]|destruct e];
    do 8 (destruct n as [|n]; [by run_M|]); lia.
Qed.

(** C5, as the code has it. The teardown belongs to [stop], which alone
    clears the run flag and which [run] calls from its handler of
    [KeyboardInterrupt]; the loop's own test of the flag triggers none.
    Whenever a run of a new collector ends with the run flag false, an
    interrupt was raised inside the loop (after the eight calls of the
    startup at the earliest), after exactly the calls that preceded it, none
    of them a teardown call, and nothing of the poll cycle was done after it:
    the handler logged, published "offline" to the status topic, stopped the
    network loop, disconnected from the bus and then closed the serial port,
    which is left closed, after which [run] returned. These four are the only
    teardown calls of the whole run, each made once, in this order. When
    setup succeeds and the interrupt arrives once the loop is entered, the
    run does end in this way. A loop that finds the run flag false ends at
    once without any call. *)
Theorem shutdown_tears_down_in_order (w : world) (fuel : nat)
    (p : option nat) :
  (running (run w fuel (init_state p)).2 = false →
     (run w fuel (init_state p)).1 = Ok Finished
     ∧ (∃ n pre,
          p = Some n ∧ 8 ≤ n ∧ length pre = n
          ∧ Forall (of_kinds working) pre
          ∧ trace (run w fuel (init_state p)).2 = pre ++ teardown)
     ∧ List.filter is_teardown (trace (run w fuel (init_state p)).2)
       = [ MqttPublish MQTT_TOPIC_STATUS (py "offline");
           MqttLoopStop; MqttDisconnect; SerialClose ]
     ∧ serial_conn (run w fuel (init_state p)).2 = Some false
     ∧ pending_interrupt (run w fuel (init_state p)).2 = None)
  ∧ (∀ n, p = Some n → 8 ≤ n → n < fuel →
       uart_open_answer w = Returns () →
       mqtt_connect_answer w = Returns () →
       mqtt_loop_start_answer w = Returns () →
       (run w fuel (init_state p)).1 = Ok Finished
       ∧ running (run w fuel (init_state p)).2 = false)
  ∧ (∀ i st, running st = false → poll_loop w fuel i st = (Ok Finished, st)).
Proof.
  split; [|split].
  - intros Hstop.
    destruct (run_has_outcome float_of_str int_of_str json_dumps w fuel
                (init_state p)) as [(evs & _ & _ & Hr & _)|(st1 & Hs & Hout)].
    { rewrite Hr in Hstop. discriminate Hstop. }
    assert (Hlate : ∀ n, p = Some n → 8 ≤ n).
    { intros n ->. destruct (le_lt_dec 8 n) as [Hle|Hlt]; [done|].
      rewrite (run_flag_kept_during_startup w fuel n Hlt) in Hstop.
      discriminate Hstop. }
    rewrite Hout. simpl.
    destruct Hs as (pre & Hpre & Htr & _ & Hp & _). simpl in Htr, Hp.
    rewrite Htr. split; [done|].
    split; [exists (length pre), pre; by auto|].
    split; [|done].
    rewrite List.filter_app, (filter_teardown_working pre Hpre). done.
  - intros n -> Hn Hfuel Hu Hc Hl.
    replace n with (8 + (n - 8)) by lia.
    rewrite (run_startup float_of_str int_of_str json_dumps w fuel (n - 8)
               Hu Hc Hl).
    unfold try_except.
    pose proof (poll_loop_interrupted float_of_str int_of_str json_dumps
                  w fuel 0 (mkState (Some true) true startup (Some (n - 8)))
                  (n - 8) eq_refl eq_refl ltac:(lia)) as Hint.
    destruct (poll_loop_calls float_of_str int_of_str json_dumps w fuel 0
                (mkState (Some true) true startup (Some (n - 8))))
      as [(evs & _ & _ & _ & Htick) _].
    pose proof (poll_loop_keeps float_of_str int_of_str json_dumps w fuel 0
                  (mkState (Some true) true startup (Some (n - 8)))) as Hk.
    destruct (poll_loop w fuel 0 _) as [r st1]. simpl in *.
    rewrite Hint in *. simpl in *. destruct Htick as [_ Hnone].
    by rewrite handler_tears_down.
  - intros i st. apply poll_loop_flag_false.
Qed.

End Shutdown.

Lemma setup_failure_aborts_witness :
  ((run ref_float ref_int ref_dumps
      (mkWorld (Fails SerialException) (Returns ()) (Returns ())
         (λ _, steady_cycle (py "TEMP:23.5 HUM:60.2") (py "T0")))
      5 (init_state (Some 100))).1 ≠ Ok StillRunning
   ∧ Forall (of_kinds [KOpen; KLog])
       (trace (run ref_float ref_int ref_dumps
                 (mkWorld (Fails SerialException) (Returns ()) (Returns ())
                    (λ _, steady_cycle (py "TEMP:23.5 HUM:60.2") (py "T0")))
                 5 (init_state (Some 100))).2)
   ∧ running (run ref_float ref_int ref_dumps
                (mkWorld (Fails SerialException) (Returns ()) (Returns ())
                   (λ _, steady_cycle (py "TEMP:23.5 HUM:60.2") (py "T0")))
                5 (init_state (Some 100))).2 = true)
  ∧ ((run ref_float ref_int ref_dumps
        (mkWorld (Returns ()) (Fails OSError) (Returns ())
           (λ _, steady_cycle (py "TEMP:23.5 HUM:60.2") (py "T0")))
        5 (init_state None)).1 ≠ Ok StillRunning
     ∧ Forall (of_kinds [KOpen; KConnect; KLog])
         (trace (run ref_float ref_int ref_dumps
                   (mkWorld (Returns ()) (Fails OSError) (Returns ())
                      (λ _, steady_cycle (py "TEMP:23.5 HUM:60.2") (py "T0")))
                   5 (init_state None)).2)
     ∧ running (run ref_float ref_int ref_dumps
                  (mkWorld (Returns ()) (Fails OSError) (Returns ())
                     (λ _, steady_cycle (py "TEMP:23.5 HUM:60.2") (py "T0")))
                  5 (init_state None)).2 = true).
Proof.
  split.
  - refine (proj1 (setup_failure_aborts ref_float ref_int ref_dumps
                     (mkWorld (Fails SerialException) (Returns ()) (Returns ())
                        (λ _, steady_cycle (py "TEMP:23.5 HUM:60.2") (py "T0")))
                     5 (Some 100) SerialException) _).
    reflexivity.
  - refine (proj1 (proj2 (setup_failure_aborts ref_float ref_int ref_dumps
                            (mkWorld (Returns ()) (Fails OSError) (Returns ())
                               (λ _, steady_cycle (py "TEMP:23.5 HUM:60.2")
                                       (py "T0")))
                            5 None OSError)) _ _).
    + reflexivity.
    + left. reflexivity.
Defined.

Lemma shutdown_tears_down_in_order_witness :
  (run ref_float ref_int ref_dumps
     (steady_world (py "TEMP:23.5 HUM:60.2 STATUS:1") (py "T0")) 30
     (init_state (Some 20))).1 = Ok Finished
  ∧ List.filter is_teardown
      (trace (run ref_float ref_int ref_dumps
                (steady_world (py "TEMP:23.5 HUM:60.2 STATUS:1") (py "T0")) 30
                (init_state (Some 20))).2)
    = [ MqttPublish MQTT_TOPIC_STATUS (py "offline");
        MqttLoopStop; MqttDisconnect; SerialClose ]
  ∧ serial_conn
      (run ref_float ref_int ref_dumps
         (steady_world (py "TEMP:23.5 HUM:60.2 STATUS:1") (py "T0")) 30
         (init_state (Some 20))).2 = Some false.
Proof.
  destruct (proj1 (proj2 (shutdown_tears_down_in_order ref_float ref_int
                            ref_dumps
                            (steady_world (py "TEMP:23.5 HUM:60.2 STATUS:1")
                               (py "T0"))
                            30 (Some 20)))
              20 eq_refl ltac:(lia) ltac:(lia) eq_refl eq_refl eq_refl)
    as [Hfinished Hstopped].
  destruct (proj1 (shutdown_tears_down_in_order ref_float ref_int ref_dumps
                     (steady_world (py "TEMP:23.5 HUM:60.2 STATUS:1") (py "T0"))
                     30 (Some 20)) Hstopped)
    as (_ & _ & Hteardown & Hclosed & _).
  split; [exact Hfinished|]. split; [exact Hteardown|exact Hclosed].
Defined.

(** The run flag cleared other than by the handler: a collector whose
    flag is false when the loop tests it. Setup is done, the loop ends at its
    first test, and [run] returns with the port open and the bus connected:
    no "offline", no disconnect, no close. *)
Lemma flag_cleared_without_teardown :
  run ref_float ref_int ref_dumps
    (steady_world (py "TEMP:23.5 HUM:60.2 STATUS:1") (py "T0")) 3
    (mkState None false [] None)
  = (Ok Finished, mkState (Some true) false startup None)
  ∧ List.filter is_teardown (startup (F := decimal)) = [].
Proof. split; vm_compute; reflexivity. Qed.

(** * Further properties of the collector *)

(** ** White space and tokens *)

Section Tokens.

Lemma split_from_leading (a s : pystr) :
  Forall (λ c, isspace c = true) a → split_from [] (a ++ s) = split_from [] s.
Proof. induction 1 as [|c a Hc _ IH]; simpl; [done|]. by rewrite Hc. Qed.

Lemma split_from_spaces (cur b : pystr) :
  Forall (λ c, isspace c = true) b →
  split_from cur b = match cur with [] => [] | _ => [rev cur] end.
Proof.
  intros Hb. revert cur. induction Hb as [|c b Hc _ IH]; intros cur; simpl.
  - done.
  - rewrite Hc. destruct cur; [apply (IH [])|]. by rewrite (IH []).
Qed.

Lemma split_from_trailing (cur s b : pystr) :
  Forall (λ c, isspace c = true) b →
  split_from cur (s ++ b) = split_from cur s.
Proof.
  intros Hb. revert cur. induction s as [|c s IH]; intros cur; simpl.
  - by apply split_from_spaces.
  - destruct (isspace c); [|apply IH]. destruct cur; by rewrite IH.
Qed.

(** [lstrip] removes a run of white space from the front. *)
Lemma lstrip_decompose (s : pystr) :
  ∃ a, Forall (λ c, isspace c = true) a ∧ s = a ++ lstrip s.
Proof.
  induction s as [|c s (a & Ha & IH)]; [by exists []|]. simpl.
  destruct (isspace c) eqn:Hc.
  - exists (c :: a). split; [by constructor|]. simpl. by f_equal.
  - by exists [].
Qed.

(** [rstrip] removes a run of white space from the end. *)
Lemma rstrip_decompose (s : pystr) :
  ∃ b, Forall (λ c, isspace c = true) b ∧ s = rstrip s ++ b.
Proof.
  unfold rstrip. destruct (lstrip_decompose (rev s)) as (a & Ha & Hs).
  exists (rev a). split.
  - by apply List.Forall_rev.
  - rewrite <-rev_app_distr, <-Hs. by rewrite rev_involutive.
Qed.

(** The [strip()] before [split()] changes nothing. *)
Lemma tokens_split (s : pystr) : tokens s = split s.
Proof.
  unfold tokens, strip, split.
  destruct (lstrip_decompose s) as (a & Ha & Hs).
  destruct (rstrip_decompose (lstrip s)) as (b & Hb & Hl).
  rewrite Hs at 2. rewrite (split_from_leading a _ Ha).
  rewrite Hl at 2. by rewrite (split_from_trailing [] _ b Hb).
Qed.

Lemma tokens_padding (a s b : pystr) :
  Forall (λ c, isspace c = true) a →
  Forall (λ c, isspace c = true) b →
  tokens (a ++ s ++ b) = tokens s.
Proof.
  intros Ha Hb. rewrite !tokens_split. unfold split.
  by rewrite (split_from_leading a _ Ha), (split_from_trailing [] s b Hb).
Qed.

End Tokens.

Lemma split_from_tokens (cur s : pystr) :
  Forall (λ c, isspace c = false) cur →
  Forall (λ t, t ≠ [] ∧ Forall (λ c, isspace c = false) t) (split_from cur s).
Proof.
  revert cur. induction s as [|c s IH]; intros cur Hcur; simpl.
  - destruct cur as [|c' cur]; [done|]. apply Forall_singleton. split.
    + simpl. by destruct (rev cur).
    + by apply List.Forall_rev.
  - destruct (isspace c) eqn:Hc.
    + destruct cur as [|c' cur]; [by apply IH|]. constructor; [|by apply IH].
      split; [simpl; by destruct (rev cur)|by apply List.Forall_rev].
    + apply IH. by constructor.
Qed.

(** ** More on the line parser *)

Section ParserMore.

Context {F : Type}.
Variable float_of_str : pystr → option F.
Variable int_of_str : pystr → option Z.

Local Abbreviation dict := (gmap string (value F)).
Local Abbreviation parse_part := (parse_part float_of_str int_of_str).
Local Abbreviation parse_parts := (parse_parts float_of_str int_of_str).
Local Abbreviation parse_sensor_data := (parse_sensor_data float_of_str int_of_str).
Local Abbreviation key_decode := (key_decode float_of_str int_of_str).
Local Abbreviation decodable := (decodable float_of_str int_of_str).
Local Abbreviation undecodable := (undecodable float_of_str int_of_str).

Lemma has_prefix_or_not (k : key) (t : pystr) :
  has_prefix k t ∨ ¬ has_prefix k t.
Proof.
  destruct (startswith (key_prefix k) t) eqn:Hs.
  - left. by apply has_prefix_startswith.
  - right. intros H%has_prefix_startswith. congruence.
Qed.

Lemma token_of_key_or_none (k : key) (l : list pystr) :
  Exists (has_prefix k) l ∨ Forall (λ t, ¬ has_prefix k t) l.
Proof.
  induction l as [|t l [IH|IH]]; [by right|left; by right|].
  destruct (has_prefix_or_not k t); [left; by left|right; by constructor].
Qed.

(** The last token of a key that occurs. *)
Lemma last_token_of_key (k : key) (l : list pystr) :
  Exists (has_prefix k) l →
  ∃ l1 v l2, l = l1 ++ (key_prefix k ++ v) :: l2
             ∧ Forall (λ t, ¬ has_prefix k t) l2.
Proof.
  induction l as [|t l IH]; intros Hex; [by apply Exists_nil in Hex|].
  destruct (token_of_key_or_none k l) as [Hl|Hl].
  - destruct (IH Hl) as (l1 & v & l2 & -> & Hl2). by exists (t :: l1), v, l2.
  - apply Exists_cons in Hex as [[v ->]|Hex].
    + by exists [], v, l.
    + apply Exists_exists in Hex as (t' & Hin & Ht').
      by destruct (proj1 (Forall_forall _ _) Hl t' Hin).
Qed.

Lemma decodable_or_not (t : pystr) : decodable t ∨ undecodable t.
Proof.
  destruct (recognized_or_not t) as [[k [v ->]]|Hu].
  - destruct (key_decode k v) as [x|] eqn:Hx.
    + left. intros k' v' Heq.
      assert (k' = k) as ->.
      { apply (has_prefix_inj _ _ (key_prefix k ++ v)); [by exists v'|by exists v]. }
      apply app_inv_head in Heq as <-. by rewrite Hx.
    + right. by exists k, v.
  - left. intros k v ->. destruct (Hu k). by exists v.
Qed.

(** A raise of the loop comes from an undecodable token. *)
Lemma parse_parts_raise_token (l : list pystr) (d : dict) (r : raised) :
  parse_parts l d = Raise r → ∃ t, t ∈ l ∧ undecodable t.
Proof.
  revert d. induction l as [|t l IH]; intros d; simpl; [done|].
  destruct (decodable_or_not t) as [Hd|Hu]; [|intros _; exists t; split; [by left|done]].
  destruct (parse_part d t) as [d1|r1] eqn:Ht; simpl.
  - intros (t' & Hin & Hu)%IH. exists t'. split; [by right|done].
  - destruct (recognized_or_not t) as [[k [v ->]]|Hu].
    + rewrite parse_part_key in Ht. destruct (Hd k v eq_refl) as [x Hx].
      by rewrite Hx in Ht.
    + by rewrite parse_part_skip in Ht.
Qed.

(** The loop writes the three entries only. *)
Lemma parse_parts_other_names (l : list pystr) (d d' : dict) (i : string) :
  (∀ k, i ≠ key_name k) → parse_parts l d = Ok d' → d' !! i = d !! i.
Proof.
  intros Hi. revert d. induction l as [|t l IH]; intros d; simpl.
  - by intros [= ->].
  - destruct (recognized_or_not t) as [[k [v ->]]|Hu].
    + rewrite parse_part_key. destruct (key_decode k v) as [x|]; simpl; [|done].
      intros ->%IH. apply lookup_insert_ne. by intros <-; destruct (Hi k).
    + rewrite parse_part_skip by done. apply IH.
Qed.

(** An entry of the result is a decoded value of its key. *)
Lemma parse_parts_entry (l : list pystr) (d' : dict) (k : key) (x : value F) :
  parse_parts l ∅ = Ok d' →
  d' !! key_name k = Some x →
  ∃ v, key_prefix k ++ v ∈ l ∧ key_decode k v = Some x.
Proof.
  intros Hp Hx. destruct (token_of_key_or_none k l) as [Hex|Hno].
  - destruct (last_token_of_key k l Hex) as (l1 & v & l2 & -> & Hl2).
    apply (parse_parts_last _ _ l1 l2 ∅ d' k v Hl2) in Hp as [Hp _].
    exists v. split; [|congruence]. apply elem_of_app. right. by left.
  - rewrite (parse_parts_other _ _ _ _ _ k Hno Hp), lookup_empty in Hx. done.
Qed.

(** X1. A line is rejected exactly when one of its tokens is undecodable,
    or none of them begins with [TEMP:], or none begins with [HUM:]. *)
Theorem parse_rejects_iff (s : pystr) :
  parse_sensor_data s = Ok None
  ↔ (∃ t, t ∈ tokens s ∧ undecodable t)
    ∨ (∀ t, t ∈ tokens s → ¬ has_prefix KTemp t)
    ∨ (∀ t, t ∈ tokens s → ¬ has_prefix KHum t).
Proof.
  split.
  - rewrite parse_sensor_data_unfold.
    destruct (parse_parts (tokens s) ∅) as [d|r] eqn:Hp.
    + destruct (has_key "temperature" d) eqn:Ht;
        [destruct (has_key "humidity" d) eqn:Hh; [done|]|]; intros _; right.
      * right. destruct (token_of_key_or_none KHum (tokens s)) as [Hex|Hno];
          [|by apply Forall_forall].
        apply bool_decide_eq_false_1 in Hh. destruct Hh.
        apply (parse_parts_keeps _ _ _ _ _ KHum Hp). by right.
      * left. destruct (token_of_key_or_none KTemp (tokens s)) as [Hex|Hno];
          [|by apply Forall_forall].
        apply bool_decide_eq_false_1 in Ht. destruct Ht.
        apply (parse_parts_keeps _ _ _ _ _ KTemp Hp). by right.
    + intros _. left. by apply (parse_parts_raise_token _ _ _ Hp).
  - intros [(t & Hin & Hu)|[Hno|Hno]].
    + by apply (parse_undecodable _ _ s t).
    + apply (parse_missing _ _ s KTemp); auto.
    + apply (parse_missing _ _ s KHum); auto.
Qed.

(** X2. A reading that is returned has a float under "temperature" and
    under "humidity", each decoded from a token of the line; under "status"
    it has an integer if the line has a [STATUS:] token and nothing
    otherwise; and it has no other key. *)
Theorem parse_reading_shape (s : pystr) (d : dict) :
  parse_sensor_data s = Ok (Some d) →
  (∃ vt ft, py "TEMP:" ++ vt ∈ tokens s ∧ float_of_str vt = Some ft
            ∧ d !! "temperature" = Some (VFloat ft))
  ∧ (∃ vh fh, py "HUM:" ++ vh ∈ tokens s ∧ float_of_str vh = Some fh
              ∧ d !! "humidity" = Some (VFloat fh))
  ∧ ((∃ vs z, py "STATUS:" ++ vs ∈ tokens s ∧ int_of_str vs = Some z
              ∧ d !! "status" = Some (VInt z))
     ∨ ((∀ t, t ∈ tokens s → ¬ has_prefix KStatus t) ∧ d !! "status" = None))
  ∧ (∀ i, i ≠ "temperature" → i ≠ "humidity" → i ≠ "status" → d !! i = None).
Proof.
  rewrite parse_sensor_data_unfold.
  destruct (parse_parts (tokens s) ∅) as [d0|r] eqn:Hp;
    [|by destruct (is_Exception r)].
  destruct (has_key "temperature" d0) eqn:Ht; [|done].
  destruct (has_key "humidity" d0) eqn:Hh; [|done].
  intros [= <-].
  apply bool_decide_eq_true_1 in Ht as [xt Hxt].
  apply bool_decide_eq_true_1 in Hh as [xh Hxh].
  split; [|split; [|split]].
  - destruct (parse_parts_entry _ _ KTemp xt Hp Hxt) as (v & Hin & Hv).
    simpl in Hv. destruct (float_of_str v) as [f|] eqn:Hf; [|done].
    injection Hv as <-. by exists v, f.
  - destruct (parse_parts_entry _ _ KHum xh Hp Hxh) as (v & Hin & Hv).
    simpl in Hv. destruct (float_of_str v) as [f|] eqn:Hf; [|done].
    injection Hv as <-. by exists v, f.
  - destruct (d0 !! "status") as [xs|] eqn:Hxs.
    + left. destruct (parse_parts_entry _ _ KStatus xs Hp Hxs) as (v & Hin & Hv).
      simpl in Hv. destruct (int_of_str v) as [z|] eqn:Hz; [|done].
      injection Hv as <-. by exists v, z.
    + right. split; [|done].
      destruct (token_of_key_or_none KStatus (tokens s)) as [Hex|Hno];
        [|by apply Forall_forall].
      assert (is_Some (d0 !! key_name KStatus)) as [? Hsome]
        by (apply (parse_parts_keeps _ _ _ _ _ KStatus Hp); by right).
      simpl in Hsome. congruence.
  - intros i H1 H2 H3.
    rewrite (parse_parts_other_names (tokens s) ∅ d0 i); [done| |done].
    by intros [].
Qed.

(** X3. White space before and after a line, such as the line end that
    [readline] leaves, has no influence on the result; the [strip()] before
    [split()] is redundant; and no token is empty or contains white space. *)
Theorem parse_ignores_padding (a s b : pystr) :
  Forall (λ c, isspace c = true) a →
  Forall (λ c, isspace c = true) b →
  parse_sensor_data (a ++ s ++ b) = parse_sensor_data s
  ∧ tokens s = split s
  ∧ Forall (λ t, t ≠ [] ∧ Forall (λ c, isspace c = false) t) (tokens s).
Proof.
  intros Ha Hb. split; [|split].
  - by rewrite !parse_sensor_data_unfold, (tokens_padding a s b Ha Hb).
  - apply tokens_split.
  - rewrite tokens_split. by apply split_from_tokens.
Qed.

End ParserMore.

Section TokenOrder.

Context {F : Type}.
Variable float_of_str : pystr → option F.
Variable int_of_str : pystr → option Z.

Local Abbreviation dict := (gmap string (value F)).
Local Abbreviation parse_parts := (parse_parts float_of_str int_of_str).
Local Abbreviation parse_sensor_data := (parse_sensor_data float_of_str int_of_str).
Local Abbreviation key_decode := (key_decode float_of_str int_of_str).

(** With one token per key, the entry of a key is the same after any
    rearrangement of the tokens. *)
Lemma parse_parts_perm_entry (l l' : list pystr) (d d' : dict) (k : key) :
  l ≡ₚ l' →
  (∀ t1 t2, t1 ∈ l → t2 ∈ l → has_prefix k t1 → has_prefix k t2 → t1 = t2) →
  parse_parts l ∅ = Ok d →
  parse_parts l' ∅ = Ok d' →
  d !! key_name k = d' !! key_name k.
Proof.
  intros Hperm Huniq Hd Hd'.
  destruct (token_of_key_or_none k l) as [Hex|Hno].
  - destruct (last_token_of_key k l Hex) as (l1 & v & l2 & Hl & Hl2).
    assert (Hex' : Exists (has_prefix k) l').
    { apply Exists_exists in Hex as (t & Hin & Ht). apply Exists_exists.
      exists t. split; [by rewrite <-Hperm|done]. }
    destruct (last_token_of_key k l' Hex') as (l1' & v' & l2' & Hl' & Hl2').
    assert (key_prefix k ++ v = key_prefix k ++ v') as Hvv.
    { apply Huniq; [| |by exists v|by exists v'].
      - rewrite Hl. apply elem_of_app. right. by left.
      - rewrite Hperm, Hl'. apply elem_of_app. right. by left. }
    apply app_inv_head in Hvv as <-.
    rewrite Hl in Hd. rewrite Hl' in Hd'.
    apply (parse_parts_last _ _ l1 l2 ∅ d k v Hl2) in Hd as [<- _].
    by apply (parse_parts_last _ _ l1' l2' ∅ d' k v Hl2') in Hd' as [<- _].
  - assert (Hno' : Forall (λ t, ¬ has_prefix k t) l').
    { apply Forall_forall. intros t Hin.
      apply (proj1 (Forall_forall _ _) Hno). by rewrite Hperm. }
    by rewrite (parse_parts_other _ _ _ _ _ k Hno Hd),
      (parse_parts_other _ _ _ _ _ k Hno' Hd').
Qed.

(** X4. When no recognized key is given by two different tokens, the
    order of the tokens of a line has no influence on the result. *)
Theorem parse_order_independent (s s' : pystr) :
  tokens s ≡ₚ tokens s' →
  (∀ k t1 t2, t1 ∈ tokens s → t2 ∈ tokens s →
              has_prefix k t1 → has_prefix k t2 → t1 = t2) →
  parse_sensor_data s = parse_sensor_data s'.
Proof.
  intros Hperm Huniq. rewrite !parse_sensor_data_unfold.
  destruct (parse_parts (tokens s) ∅) as [d|r] eqn:Hd;
    destruct (parse_parts (tokens s') ∅) as [d'|r'] eqn:Hd'.
  - assert (d = d') as ->; [|done]. apply map_eq. intros i.
    destruct (decide (i = "temperature")) as [->|H1];
      [by apply (parse_parts_perm_entry _ _ d d' KTemp Hperm (Huniq KTemp))|].
    destruct (decide (i = "humidity")) as [->|H2];
      [by apply (parse_parts_perm_entry _ _ d d' KHum Hperm (Huniq KHum))|].
    destruct (decide (i = "status")) as [->|H3];
      [by apply (parse_parts_perm_entry _ _ d d' KStatus Hperm (Huniq KStatus))|].
    rewrite (parse_parts_other_names float_of_str int_of_str (tokens s) ∅ d i),
      (parse_parts_other_names float_of_str int_of_str (tokens s') ∅ d' i);
      try done; by intros [].
  - destruct (parse_parts_raise_token _ _ _ _ _ Hd') as (t & Hin & Hu).
    rewrite <-Hperm in Hin.
    by rewrite (parse_parts_undecodable _ _ _ ∅ t Hin Hu) in Hd.
  - destruct (parse_parts_raise_token _ _ _ _ _ Hd) as (t & Hin & Hu).
    rewrite Hperm in Hin.
    by rewrite (parse_parts_undecodable _ _ _ ∅ t Hin Hu) in Hd'.
  - by rewrite (parse_parts_raise _ _ _ _ _ Hd), (parse_parts_raise _ _ _ _ _ Hd').
Qed.

End TokenOrder.

Lemma parse_reading_shape_witness :
  (∃ vt ft, py "TEMP:" ++ vt ∈ tokens (py "HUM:40 TEMP:21.5")
            ∧ ref_float vt = Some ft
            ∧ (<["temperature" := VFloat (mkDec 215 1)]>
                 (<["humidity" := VFloat (mkDec 40 0)]> ∅) : gmap string _)
                !! "temperature" = Some (VFloat ft))
  ∧ (∃ vh fh, py "HUM:" ++ vh ∈ tokens (py "HUM:40 TEMP:21.5")
              ∧ ref_float vh = Some fh
              ∧ (<["temperature" := VFloat (mkDec 215 1)]>
                   (<["humidity" := VFloat (mkDec 40 0)]> ∅) : gmap string _)
                  !! "humidity" = Some (VFloat fh))
  ∧ ((∃ vs z, py "STATUS:" ++ vs ∈ tokens (py "HUM:40 TEMP:21.5")
              ∧ ref_int vs = Some z
              ∧ (<["temperature" := VFloat (mkDec 215 1)]>
                   (<["humidity" := VFloat (mkDec 40 0)]> ∅) : gmap string _)
                  !! "status" = Some (VInt z))
     ∨ ((∀ t, t ∈ tokens (py "HUM:40 TEMP:21.5") → ¬ has_prefix KStatus t)
        ∧ (<["temperature" := VFloat (mkDec 215 1)]>
             (<["humidity" := VFloat (mkDec 40 0)]> ∅) : gmap string _)
            !! "status" = None))
  ∧ (∀ i, i ≠ "temperature" → i ≠ "humidity" → i ≠ "status" →
          (<["temperature" := VFloat (mkDec 215 1)]>
             (<["humidity" := VFloat (mkDec 40 0)]> ∅) : gmap string _)
            !! i = None).
Proof.
  refine (parse_reading_shape ref_float ref_int (py "HUM:40 TEMP:21.5")
            (<["temperature" := VFloat (mkDec 215 1)]>
               (<["humidity" := VFloat (mkDec 40 0)]> ∅)) _).
  vm_compute. reflexivity.
Defined.

Lemma parse_ignores_padding_witness :
  parse_sensor_data ref_float ref_int
    ([32; 9]%N ++ py "TEMP:21.5 HUM:40" ++ [13; 10]%N)
  = parse_sensor_data ref_float ref_int (py "TEMP:21.5 HUM:40").
Proof.
  refine (proj1 (parse_ignores_padding ref_float ref_int
                   [32; 9]%N (py "TEMP:21.5 HUM:40") [13; 10]%N _ _)).
  - repeat constructor.
  - repeat constructor.
Defined.

Lemma parse_order_independent_witness :
  parse_sensor_data ref_float ref_int (py "TEMP:21.5 HUM:40 STATUS:2")
  = parse_sensor_data ref_float ref_int (py "STATUS:2 HUM:40 TEMP:21.5").
Proof.
  refine (parse_order_independent ref_float ref_int
            (py "TEMP:21.5 HUM:40 STATUS:2") (py "STATUS:2 HUM:40 TEMP:21.5")
            _ _).
  - vm_compute.
    apply (Permutation_rev
             [[84; 69; 77; 80; 58; 50; 49; 46; 53]; [72; 85; 77; 58; 52; 48];
              [83; 84; 65; 84; 85; 83; 58; 50]]%N).
  - intros k t1 t2 H1 H2 [v1 Hv1] [v2 Hv2].
    eval_list_in H1. eval_list_in H2.
    repeat (apply elem_of_cons in H1 as [->|H1]);
      [| | |by apply elem_of_nil in H1];
      (repeat (apply elem_of_cons in H2 as [->|H2]);
       [| | |by apply elem_of_nil in H2]);
      try reflexivity; destruct k; discriminate.
Defined.

(** ** The methods one by one, when no interrupt is pending *)

Section Methods.

Context {F : Type}.
Variable float_of_str : pystr → option F.
Variable int_of_str : pystr → option Z.
Variable json_dumps : json (F := F) → pystr.

Local Abbreviation event := (@event F).
Local Abbreviation state := (@state F).
Local Abbreviation M := (@M F).
Local Abbreviation publish_data := (publish_data json_dumps).
Local Abbreviation parse_sensor_data_call :=
  (parse_sensor_data_call float_of_str int_of_str).
Local Abbreviation parse_sensor_data := (parse_sensor_data float_of_str int_of_str).
Local Abbreviation run := (run float_of_str int_of_str json_dumps).

Lemma after_calls_quiet (evs : list event) (st : state) :
  pending_interrupt st = None →
  after_calls evs st
  = mkState (serial_conn st) (running st) (trace st ++ evs) None.
Proof. intros Hp. unfold after_calls. by rewrite Hp. Qed.

Lemma after_calls_app (evs1 evs2 : list event) (st : state) :
  after_calls evs2 (after_calls evs1 st) = after_calls (evs1 ++ evs2) st.
Proof.
  unfold after_calls. simpl. rewrite app_assoc, length_app. f_equal.
  destruct (pending_interrupt st); simpl; f_equal. lia.
Qed.

(** X5. A reading without a temperature entry makes [publish_data]
    publish nothing; a reading with a temperature but no humidity entry makes
    it publish the temperature message alone. In both cases the [KeyError] is
    logged and [publish_data] returns normally. *)
Theorem publish_data_missing_entry (c : cycle_world)
    (d : gmap string (value F)) (st : state) :
  pending_interrupt st = None →
  (d !! "temperature" = None →
   publish_data c d st
   = (Ok (),
      after_calls
        [ ClockNow;
          Log ERROR "Error publishing data: {e}" [AExn (KeyError "temperature")] ]
        st))
  ∧ (∀ t, d !! "temperature" = Some t →
          d !! "humidity" = None →
          publish_data c d st
          = (Ok (),
             after_calls
               [ ClockNow;
                 MqttPublish MQTT_TOPIC_TEMP
                   (json_dumps (payload_object t (now_isoformat c) unit_celsius));
                 Log ERROR "Error publishing data: {e}"
                   [AExn (KeyError "humidity")] ]
               st)).
Proof.
  intros Hp. split.
  - intros Ht. rewrite after_calls_quiet by done.
    unfold publish_data, getitem. rewrite Ht.
    destruct st as [sc rn tr p]. simpl in Hp. subst p. run_M.
    by rewrite <-!app_assoc.
  - intros t Ht Hh. rewrite after_calls_quiet by done.
    unfold publish_data, getitem. rewrite Ht, Hh.
    destruct st as [sc rn tr p]. simpl in Hp. subst p. run_M.
    by rewrite <-!app_assoc.
Qed.

(** X6. [read_sensor_data] never raises: when nothing waits in the port it
    returns [None] without calling [readline]; a failing [in_waiting] or a
    failing [readline] or decoding is logged and gives [None]; data is returned
    exactly when bytes were waiting and the line was read and decoded. *)
Theorem read_sensor_data_outcomes (c : cycle_world) (st : state) :
  pending_interrupt st = None →
  read_sensor_data c st
  = match in_waiting_answer c with
    | Fails e =>
        (Ok None,
         after_calls
           [SerialInWaiting; Log ERROR "Error reading UART: {e}" [AExn e]] st)
    | Returns n =>
        if (n =? 0)%N then (Ok None, after_calls [SerialInWaiting] st)
        else match readline_answer c with
             | Returns data =>
                 (Ok (Some data),
                  after_calls [SerialInWaiting; SerialReadline] st)
             | Fails e =>
                 (Ok None,
                  after_calls
                    [ SerialInWaiting; SerialReadline;
                      Log ERROR "Error reading UART: {e}" [AExn e] ] st)
             end
    end.
Proof.
  intros Hp. unfold read_sensor_data.
  destruct st as [sc rn tr p]. simpl in Hp. subst p.
  destruct (in_waiting_answer c) as [n|e]; [destruct (n =? 0)%N eqn:Hn|].
  - rewrite after_calls_quiet by done. run_M. by rewrite Hn.
  - destruct (readline_answer c) as [data|e];
      rewrite after_calls_quiet by done; run_M; rewrite Hn; simpl;
      by rewrite <-?app_assoc.
  - rewrite after_calls_quiet by done. run_M. by rewrite <-?app_assoc.
Qed.

(** X7. [setup_uart] assigns [serial_conn] only when the port opened; it
    turns a [SerialException] into [False] and a log line, and lets every
    other exception of the serial library escape; such an exception then
    escapes [run] as well, after the one attempt to open the port. *)
Theorem setup_uart_outcomes (w : world) (st : state) (fuel : nat) :
  pending_interrupt st = None →
  setup_uart w st
  = match uart_open_answer w with
    | Returns _ =>
        (Ok true,
         mkState (Some true) (running st)
           (trace st
              ++ [ SerialOpen UART_PORT BAUD_RATE 1;
                   Log INFO "UART connection established on {UART_PORT}"
                     [AStr UART_PORT] ])
           None)
    | Fails SerialException =>
        (Ok false,
         after_calls
           [ SerialOpen UART_PORT BAUD_RATE 1;
             Log ERROR "Failed to open UART port: {e}" [AExn SerialException] ]
           st)
    | Fails e => (Raise (Exc e), after_calls [SerialOpen UART_PORT BAUD_RATE 1] st)
    end
  ∧ (∀ e, uart_open_answer w = Fails e → e ≠ SerialException →
          run w fuel (init_state None)
          = (Raise (Exc e),
             mkState None true
               [ Log INFO "Starting sensor data collector..." [];
                 SerialOpen UART_PORT BAUD_RATE 1 ]
               None)).
Proof.
  intros Hp. split.
  - unfold setup_uart. destruct st as [sc rn tr p]. simpl in Hp. subst p.
    destruct (uart_open_answer w) as [[]|e].
    + run_M. by rewrite <-?app_assoc.
    + destruct e; rewrite after_calls_quiet by done; run_M;
        by rewrite <-?app_assoc.
  - intros e Hw He. unfold run, setup_uart. rewrite Hw.
    destruct e; try done; by run_M.
Qed.

(** X8. [setup_mqtt] never raises: a failing [connect] is logged and gives
    [False] without [loop_start] being called; a failing [loop_start] after a
    successful [connect] is logged and gives [False]; otherwise the result is
    [True]. It never touches [serial_conn]. *)
Theorem setup_mqtt_outcomes (w : world) (st : state) :
  pending_interrupt st = None →
  setup_mqtt w st
  = match mqtt_connect_answer w with
    | Fails e =>
        (Ok false,
         after_calls
           [ MqttConnect MQTT_BROKER MQTT_PORT 60;
             Log ERROR "Failed to setup MQTT: {e}" [AExn e] ] st)
    | Returns _ =>
        match mqtt_loop_start_answer w with
        | Fails e =>
            (Ok false,
             after_calls
               [ MqttConnect MQTT_BROKER MQTT_PORT 60; MqttLoopStart;
                 Log ERROR "Failed to setup MQTT: {e}" [AExn e] ] st)
        | Returns _ =>
            (Ok true,
             after_calls
               [ MqttConnect MQTT_BROKER MQTT_PORT 60; MqttLoopStart;
                 Log INFO
                   "Connecting to MQTT broker at {MQTT_BROKER}:{MQTT_PORT}"
                   [AStr MQTT_BROKER; AInt MQTT_PORT] ] st)
        end
    end.
Proof.
  intros Hp. unfold setup_mqtt. destruct st as [sc rn tr p]. simpl in Hp. subst p.
  destruct (mqtt_connect_answer w) as [[]|e];
    [destruct (mqtt_loop_start_answer w) as [[]|e]|];
    rewrite after_calls_quiet by done; run_M; by rewrite <-?app_assoc.
Qed.

(** X9. [stop] sets the run flag to false, publishes "offline", stops the
    network loop and disconnects whatever the state of the port, and calls
    [close] only on a port that exists and is open, which it leaves closed:
    called before any port was opened, or on a closed one, it makes no
    [close] call, so that a second [stop] never closes the port again. *)
Theorem stop_outcomes (st : state) :
  pending_interrupt st = None →
  stop st
  = (Ok (),
     mkState
       (match serial_conn st with Some true => Some false | conn => conn end)
       false (trace st ++ stop_calls (serial_conn st)) None)
  ∧ (serial_conn st ≠ Some true →
     (SerialClose : event) ∉ stop_calls (serial_conn st))
  ∧ (stop (stop st).2).2
    = mkState
        (match serial_conn st with Some true => Some false | conn => conn end)
        false
        (trace st ++ stop_calls (serial_conn st)
           ++ [ MqttPublish MQTT_TOPIC_STATUS (py "offline"); MqttLoopStop;
                MqttDisconnect; Log INFO "Sensor collector stopped" [] ])
        None.
Proof.
  intros Hp. split; [|split].
  - unfold stop, stop_calls. destruct st as [[[]|] rn tr p]; simpl in Hp; subst p;
      run_M; by rewrite <-?app_assoc.
  - unfold stop_calls. destruct (serial_conn st) as [[]|]; [done| |];
      simpl; intros _ Hin; rewrite !elem_of_cons, elem_of_nil in Hin;
      intuition discriminate.
  - unfold stop, stop_calls. destruct st as [[[]|] rn tr p]; simpl in Hp; subst p;
      run_M; by rewrite <-?app_assoc.
Qed.

(** X10. The connect callback publishes "online" to the status topic
    exactly when the result code is 0, after logging, and otherwise only logs
    the code; the disconnect callback logs a warning exactly for a non-zero
    code and makes no other call, in particular no attempt to reconnect. *)
Theorem callbacks_outcomes (rc : Z) (st : state) :
  pending_interrupt st = None →
  on_mqtt_connect rc st
  = (Ok (),
     after_calls
       (if decide (rc = 0%Z)
        then [ Log INFO "MQTT: Connected successfully" [];
               MqttPublish MQTT_TOPIC_STATUS (py "online") ]
        else [ Log ERROR "MQTT: Connection failed with code {rc}" [AInt rc] ])
       st)
  ∧ on_mqtt_disconnect rc st
    = (Ok (),
       after_calls
         (if decide (rc = 0%Z) then []
          else [ Log WARNING "MQTT: Unexpected disconnection (code {rc})"
                   [AInt rc] ])
         st).
Proof.
  intros Hp. rewrite !after_calls_quiet by done.
  unfold on_mqtt_connect, on_mqtt_disconnect.
  destruct st as [sc rn tr p]. simpl in Hp. subst p.
  destruct (decide (rc = 0%Z)) as [->|Hrc].
  - split; run_M; by rewrite <-?app_assoc, ?app_nil_r.
  - apply Z.eqb_neq in Hrc. rewrite Hrc. split; run_M; by rewrite <-?app_assoc.
Qed.

(** X11. The parser logs an error exactly for a line with an undecodable
    token; a line that is rejected only because TEMP or HUM is missing is
    dropped without any log line; in both cases the loop gets the value of
    [parse_sensor_data]. *)
Theorem parse_logs_decode_errors_only (s : pystr) (st : state) :
  pending_interrupt st = None →
  ((∃ t, t ∈ tokens s ∧ undecodable float_of_str int_of_str t) →
   parse_sensor_data_call s st
   = (Ok None,
      after_calls
        [Log ERROR "Error parsing sensor data: {e}" [AExn ValueError]] st))
  ∧ ((∀ t, t ∈ tokens s → decodable float_of_str int_of_str t) →
     parse_sensor_data_call s st = (parse_sensor_data s, st)).
Proof.
  intros Hp. unfold parse_sensor_data_call, parse_sensor_data, parse_try.
  fold (tokens s). split.
  - intros (t & Hin & Hu).
    rewrite (parse_parts_undecodable _ _ _ ∅ t Hin Hu).
    rewrite after_calls_quiet by done.
    destruct st as [sc rn tr p]. simpl in Hp. subst p. by run_M.
  - intros Hd.
    destruct (parse_parts_ok float_of_str int_of_str (tokens s) ∅) as [d ->];
      [by apply Forall_forall|].
    simpl. by destruct (_ && _).
Qed.

End Methods.

(** ** Whole cycles and whole runs *)

Section Cycles.

Context {F : Type}.
Variable float_of_str : pystr → option F.
Variable int_of_str : pystr → option Z.
Variable json_dumps : json (F := F) → pystr.

Local Abbreviation event := (@event F).
Local Abbreviation state := (@state F).
Local Abbreviation M := (@M F).
Local Abbreviation publish_data := (publish_data json_dumps).
Local Abbreviation parse_sensor_data_call :=
  (parse_sensor_data_call float_of_str int_of_str).
Local Abbreviation parse_sensor_data := (parse_sensor_data float_of_str int_of_str).
Local Abbreviation read_response :=
  (read_response float_of_str int_of_str json_dumps).
Local Abbreviation cycle_body :=
  (cycle_body float_of_str int_of_str json_dumps).
Local Abbreviation poll_loop := (poll_loop float_of_str int_of_str json_dumps).
Local Abbreviation run := (run float_of_str int_of_str json_dumps).
Local Abbreviation cycle_call :=
  (cycle_call float_of_str int_of_str json_dumps).

(** Without a pending interrupt a computation is not interrupted. *)
Lemma calls_uninterrupted {A} (P : event → Prop) (Q : res A → Prop)
    (m : M A) (st : state) :
  calls P Q m → keeps_serial m → pending_interrupt st = None →
  ∃ evs, (m st).2 = after_calls evs st ∧ Forall P evs
         ∧ interrupted (m st).1 = false ∧ Q (m st).1.
Proof.
  intros Hm Hk Hp. destruct (Hm st) as [(evs & HP & Ht & Hr & Htick) HQ].
  specialize (Hk st). rewrite Hp in Htick.
  destruct (interrupted (m st).1) eqn:Hi; [by destruct Htick|].
  exists evs. split; [|by auto].
  rewrite after_calls_quiet by done.
  destruct (m st).2 as [sc' rn' tr' p']. simpl in *. by subst.
Qed.

Lemma emit_quiet (e : event) (st : state) :
  pending_interrupt st = None → emit e st = (Ok (), after_calls [e] st).
Proof.
  intros Hp. rewrite after_calls_quiet by done. unfold emit. by rewrite Hp.
Qed.

Lemma request_sensor_reading_outcomes (c : cycle_world) (st : state) :
  pending_interrupt st = None →
  request_sensor_reading c st
  = (Ok (),
     after_calls
       [ SerialWrite (py "R");
         match write_answer c with
         | Returns _ => Log DEBUG "Requested sensor reading from MCU" []
         | Fails e => Log ERROR "Error requesting sensor reading: {e}" [AExn e]
         end ] st).
Proof.
  intros Hp. rewrite after_calls_quiet by done. unfold request_sensor_reading.
  destruct st as [sc rn tr p]. simpl in Hp. subst p.
  destruct (write_answer c) as [[]|e]; run_M; by rewrite <-?app_assoc.
Qed.

Lemma read_response_poll (c : cycle_world) :
  calls (of_kinds [KPoll; KLog]) returns (read_response c).
Proof.
  pose proof (read_sensor_data_calls (F := F)).
  pose proof (parse_sensor_data_call_calls float_of_str int_of_str).
  pose proof (publish_data_calls json_dumps).
  unfold read_response. calls_steps.
Qed.

Lemma read_response_keeps (c : cycle_world) : keeps_serial (read_response c).
Proof.
  pose proof (getitem_keeps (F := F)).
  assert (∀ s, keeps_serial (parse_sensor_data_call s)).
  { intros s. unfold parse_sensor_data_call.
    destruct (parse_try _ _ s) as [o|r]; calls_steps. }
  unfold read_response, read_sensor_data, publish_data. calls_steps.
Qed.

(** X12. Without a pending interrupt a poll cycle always runs to its end,
    whatever the port answers and whatever the line contains: it writes the
    request "R", logs, waits 1, reads and handles the response with port,
    clock, publish and log calls only, and waits 4. *)
Theorem cycle_always_completes (c : cycle_world) (st : state) :
  pending_interrupt st = None →
  ∃ lg evs,
    cycle_body c st
    = (Ok (),
       after_calls ([SerialWrite (py "R"); lg; Sleep 1] ++ evs ++ [Sleep 4]) st)
    ∧ kind_of lg = KLog
    ∧ Forall (of_kinds [KPoll; KLog]) evs.
Proof.
  intros Hp. unfold cycle_body.
  rewrite M_bind_unfold, request_sensor_reading_outcomes by done.
  set (lg := match write_answer c with
             | Returns _ => Log DEBUG "Requested sensor reading from MCU" []
             | Fails e => Log ERROR "Error requesting sensor reading: {e}" [AExn e]
             end).
  assert (Hlg : kind_of lg = KLog) by (unfold lg; by destruct (write_answer c)).
  rewrite M_bind_unfold, emit_quiet, after_calls_app
    by (by rewrite after_calls_quiet).
  set (st1 := after_calls _ st).
  assert (Hp1 : pending_interrupt st1 = None)
    by (unfold st1; by rewrite after_calls_quiet).
  destruct (calls_uninterrupted _ _ _ st1 (read_response_poll c)
              (read_response_keeps c) Hp1) as (evs & Hst2 & Hevs & Hi & [[] Hr]).
  rewrite M_bind_unfold.
  destruct (read_response c st1) as [r st2]. simpl in Hst2, Hr. subst r st2.
  rewrite emit_quiet by (by rewrite after_calls_quiet).
  exists lg, evs. split; [|done].
  unfold st1. rewrite !after_calls_app. by rewrite <-!app_assoc.
Qed.

(** Two descriptions of the calls of one computation hold together. *)
Lemma calls_both {A} (P P' : event → Prop) (Q Q' : res A → Prop) (m : M A) :
  calls P Q m → calls P' Q' m →
  calls (λ e, P e ∧ P' e) (λ r, Q r ∧ Q' r) m.
Proof.
  intros H1 H2 st.
  destruct (H1 st) as [(evs & HP & Ht & Hr & Htick) HQ].
  destruct (H2 st) as [(evs' & HP' & Ht' & _) HQ'].
  rewrite Ht in Ht'. apply app_inv_head in Ht' as <-.
  split; [|by auto]. exists evs. split; [|done].
  apply Forall_and. by split.
Qed.

Lemma read_sensor_data_data (c : cycle_world) :
  calls (cycle_call c)
    (λ r, ∀ data, r = Ok (Some data) →
                  ∃ n, in_waiting_answer c = Returns n ∧ n ≠ 0%N
                       ∧ readline_answer c = Returns data)
    (read_sensor_data c).
Proof.
  unfold read_sensor_data.
  apply (calls_try _
           (λ r, ∀ data, r = Ok (Some data) →
                         ∃ n, in_waiting_answer c = Returns n ∧ n ≠ 0%N
                              ∧ readline_answer c = Returns data));
    [done| |done|].
  - eapply (calls_bind _ (λ r, ∀ n, r = Ok n → in_waiting_answer c = Returns n)).
    + apply calls_call; [done|]. destruct (in_waiting_answer c); [|done].
      by intros n [= ->].
    + intros n Hn. specialize (Hn n eq_refl).
      destruct (n =? 0)%N eqn:Hz; [by apply calls_ret|].
      apply N.eqb_neq in Hz.
      eapply (calls_bind _ (λ r, ∀ data, r = Ok data →
                                         readline_answer c = Returns data)).
      * apply calls_call; [done|]. destruct (readline_answer c); [|done].
        by intros data [= ->].
      * intros data Hd. apply calls_ret. intros data' [= <-]. eauto.
      * done.
    + done.
  - intros e _. simpl. apply calls_bind_seq.
    + by apply calls_emit; [|eexists].
    + intros _. by apply calls_ret.
Qed.

Lemma read_sensor_data_source (c : cycle_world) :
  calls (cycle_call c)
    (λ r, returns r
          ∧ ∀ data, r = Ok (Some data) →
                    ∃ n, in_waiting_answer c = Returns n ∧ n ≠ 0%N
                         ∧ readline_answer c = Returns data)
    (read_sensor_data c).
Proof.
  eapply calls_conseq;
    [| |apply (calls_both _ _ _ _ _ (read_sensor_data_data c)
                 (read_sensor_data_calls c))].
  - by intros e [He _].
  - by intros r [H1 H2].
Qed.

Lemma parse_sensor_data_call_source (c : cycle_world) (s : pystr) :
  calls (cycle_call c)
    (λ r, returns r ∧ ∀ d, r = Ok (Some d) → parse_sensor_data s = Ok (Some d))
    (parse_sensor_data_call s).
Proof.
  unfold parse_sensor_data_call, parse_sensor_data.
  destruct (parse_try _ _ s) as [o|r] eqn:Hs.
  - apply calls_ret. split; [by eexists|]. by intros d [= ->].
  - apply parse_try_raise in Hs as ->. simpl.
    apply calls_bind_seq.
    + by apply calls_emit; [|eexists].
    + intros _. apply calls_ret. split; [by eexists|done].
Qed.

Lemma cycle_call_calls (c : cycle_world) :
  calls (cycle_call c) returns (cycle_body c).
Proof.
  unfold cycle_body.
  apply calls_bind_returns.
  { unfold request_sensor_reading. apply calls_try_Exception.
    - apply calls_bind_any; [|intros _; by apply calls_emit].
      apply calls_call; [done|]. by destruct (write_answer c).
    - intros r. by apply calls_emit; [|eexists]. }
  intros _. apply calls_bind_returns; [by apply calls_emit; [|eexists]|].
  intros _. apply calls_bind_returns; [|intros _; by apply calls_emit; [|eexists]].
  unfold read_response.
  eapply calls_bind; [apply read_sensor_data_source| |by intros e [[? ?] _]].
  intros [[|ch rest]|] [_ Hdata]; try (apply calls_ret; by eexists).
  destruct (Hdata _ eq_refl) as (n & Hn & Hn0 & Hline).
  eapply calls_bind;
    [apply (parse_sensor_data_call_source c)| |by intros e [[? ?] _]].
  intros [d|] [_ Hd]; [|apply calls_ret; by eexists].
  specialize (Hd d eq_refl).
  destruct (bool_decide (d = ∅)); [apply calls_ret; by eexists|].
  eapply calls_conseq;
    [| |apply (calls_both _ _ _ _ _ (reading_call_calls json_dumps c d)
                 (publish_data_calls json_dumps c d))].
  - intros [] [He _]; try done. by exists n, (ch :: rest), d.
  - by intros r [_ Hr].
Qed.

(** X13. Whatever happens in a poll cycle, also when it is interrupted, a
    message is published in it only if the port had bytes waiting, a line was
    read and decoded, and the parser accepted that line; the payload is then
    the dump of an object with the temperature or the humidity of the reading
    parsed from that line. *)
Theorem cycle_publishes_parsed_only (c : cycle_world) (st : state) :
  ∃ evs, trace (cycle_body c st).2 = trace st ++ evs
         ∧ Forall (cycle_call c) evs.
Proof.
  destruct (cycle_call_calls c st) as [(evs & Hevs & Htr & _) _].
  by exists evs.
Qed.

Lemma parse_accepts_inv (line : pystr) (d : gmap string (value F)) :
  parse_sensor_data line = Ok (Some d) →
  parse_try float_of_str int_of_str line = Ok (Some d)
  ∧ line ≠ []
  ∧ ∃ t h, d !! "temperature" = Some t ∧ d !! "humidity" = Some h.
Proof.
  intros Hp. assert (Htry : parse_try float_of_str int_of_str line = Ok (Some d)).
  { unfold parse_sensor_data in Hp.
    destruct (parse_try _ _ line) as [[d'|]|r]; [done|done|].
    by destruct (is_Exception r). }
  split; [done|]. split; [by intros ->|].
  unfold parse_try in Htry.
  destruct (parse_parts _ _ _ ∅) as [d0|]; simpl in Htry; [|done].
  destruct (has_key "temperature" d0) eqn:Ht; [|done].
  destruct (has_key "humidity" d0) eqn:Hh; [|done].
  injection Htry as <-.
  apply bool_decide_eq_true_1 in Ht as [t Ht].
  apply bool_decide_eq_true_1 in Hh as [h Hh]. eauto.
Qed.

(** X14. In a cycle in which the request is written, bytes are waiting,
    a line is read and the parser accepts it, the temperature and the humidity
    parsed from that line are the values published: the calls of the cycle are
    the request, the wait of 1, the read, the clock read with the two messages
    and the log line, and the wait of 4. *)
Theorem cycle_publishes_reading (c : cycle_world) (st : state) (n : N)
    (line : pystr) (d : gmap string (value F)) :
  pending_interrupt st = None →
  write_answer c = Returns () →
  in_waiting_answer c = Returns n →
  n ≠ 0%N →
  readline_answer c = Returns line →
  parse_sensor_data line = Ok (Some d) →
  ∃ t h,
    d !! "temperature" = Some t ∧ d !! "humidity" = Some h
    ∧ cycle_body c st
      = (Ok (),
         after_calls
           ([ SerialWrite (py "R");
              Log DEBUG "Requested sensor reading from MCU" [];
              Sleep 1; SerialInWaiting; SerialReadline ]
              ++ publish_calls json_dumps (now_isoformat c) t h
              ++ [Sleep 4]) st).
Proof.
  intros Hp Hw Hn Hn0 Hl Hparse.
  destruct (parse_accepts_inv line d Hparse) as (Htry & Hne & t & h & Ht & Hh).
  exists t, h. split; [done|]. split; [done|].
  rewrite after_calls_quiet by done.
  assert (Hd : bool_decide (d = ∅) = false).
  { apply bool_decide_eq_false_2. intros ->. by rewrite lookup_empty in Ht. }
  apply N.eqb_neq in Hn0.
  unfold cycle_body, request_sensor_reading, read_response, read_sensor_data,
    parse_sensor_data_call, publish_data, getitem.
  rewrite Hw, Hn, Hl. destruct st as [sc rn tr p]. simpl in Hp. subst p.
  destruct line as [|ch rest]; [done|].
  run_M. rewrite Hn0. simpl. rewrite Htry. simpl. rewrite Hd, Ht, Hh. simpl.
  by rewrite <-!app_assoc.
Qed.

End Cycles.

Section Runs.

Context {F : Type}.
Variable float_of_str : pystr → option F.
Variable int_of_str : pystr → option Z.
Variable json_dumps : json (F := F) → pystr.

Local Abbreviation event := (@event F).
Local Abbreviation state := (@state F).
Local Abbreviation cycle_body :=
  (cycle_body float_of_str int_of_str json_dumps).
Local Abbreviation poll_loop := (poll_loop float_of_str int_of_str json_dumps).
Local Abbreviation run := (run float_of_str int_of_str json_dumps).

Lemma filter_cycle_end_none (evs : list event) :
  Forall (of_kinds [KPoll; KLog]) evs → List.filter is_cycle_end evs = [].
Proof.
  induction 1 as [|e evs He _ IH]; simpl; [done|]. rewrite IH.
  destruct e; try done. unfold of_kinds in He. simpl in He.
  rewrite !elem_of_cons, elem_of_nil in He. intuition discriminate.
Qed.

(** Without a pending interrupt the loop completes every cycle it is given. *)
Lemma poll_loop_runs_on (w : world) (fuel i : nat) (st : state) :
  pending_interrupt st = None →
  running st = true →
  ∃ evs, poll_loop w fuel i st = (Ok StillRunning, after_calls evs st)
         ∧ length (List.filter is_cycle_end evs) = fuel
         ∧ Forall (of_kinds [KPoll; KSleep; KLog]) evs.
Proof.
  revert i st. induction fuel as [|fuel IH]; intros i st Hp Hr.
  - exists []. rewrite poll_loop_0, M_bind_unfold. simpl. rewrite Hr.
    rewrite after_calls_quiet by done. destruct st. simpl in *.
    by rewrite app_nil_r, Hp.
  - rewrite poll_loop_S, M_bind_unfold. simpl. rewrite Hr, M_bind_unfold.
    destruct (cycle_always_completes float_of_str int_of_str json_dumps
                (cycle w i) st Hp) as (lg & evs1 & -> & Hlg & Hevs1).
    set (cyc := [SerialWrite (py "R"); lg; Sleep 1] ++ evs1 ++ [Sleep 4]).
    destruct (IH (S i) (after_calls cyc st)) as (evs & -> & Hn & Hevs);
      [by rewrite after_calls_quiet|by rewrite after_calls_quiet|].
    exists (cyc ++ evs). rewrite after_calls_app. split; [done|]. split.
    + rewrite List.filter_app, length_app, Hn. unfold cyc.
      rewrite !List.filter_app, (filter_cycle_end_none evs1 Hevs1).
      simpl. by destruct lg.
    + apply Forall_app. split; [|done]. unfold cyc.
      apply Forall_app. split; [|apply Forall_app; split].
      * repeat (apply Forall_cons; split); [| | |done];
          unfold of_kinds; rewrite ?Hlg; simpl; rewrite !elem_of_cons; auto.
      * eapply Forall_impl; [done|]. intros e. apply of_kinds_mono. kinds_incl.
      * apply Forall_singleton. unfold of_kinds. simpl.
        rewrite !elem_of_cons. auto.
Qed.

(** X15. Once both setup steps have succeeded and as long as no interrupt
    arrives, the collector never leaves the loop: whatever the port answers
    and whatever the lines contain, after any number of cycles it is still
    running, has completed each of them, and has made no teardown call. *)
Theorem loop_never_stops_by_itself (w : world) (fuel : nat) :
  uart_open_answer w = Returns () →
  mqtt_connect_answer w = Returns () →
  mqtt_loop_start_answer w = Returns () →
  ∃ evs,
    run w fuel (init_state None)
    = (Ok StillRunning, mkState (Some true) true (startup ++ evs) None)
    ∧ length (List.filter is_cycle_end evs) = fuel
    ∧ Forall (of_kinds [KPoll; KSleep; KLog]) evs.
Proof.
  intros Hu Hc Hl.
  destruct (poll_loop_runs_on w fuel 0 (mkState (Some true) true startup None)
              eq_refl eq_refl) as (evs & Hloop & Hn & Hevs).
  exists evs. split; [|done].
  unfold run, setup_uart, setup_mqtt. rewrite Hu, Hc, Hl.
  unfold call, raise, set_serial_conn, emit, init_state,
    mbind, M_mbind, M_bind, mret, M_mret, M_ret.
  simpl. unfold try_except. fold (@startup F). by rewrite Hloop.
Qed.

(** X16. An interrupt that arrives before the loop is entered escapes
    [run] as a [KeyboardInterrupt]: the calls made so far are not followed by
    any teardown call, the run flag stays true, and a port that was already
    opened stays open. *)
Theorem interrupt_during_startup (w : world) (fuel n : nat) :
  uart_open_answer w = Returns () →
  mqtt_connect_answer w = Returns () →
  mqtt_loop_start_answer w = Returns () →
  n < 8 →
  run w fuel (init_state (Some n))
  = (Raise KeyboardInterrupt,
     mkState (if decide (2 ≤ n) then Some true else None) true
       (take n startup) None).
Proof.
  intros Hu Hc Hl Hn. unfold run, setup_uart, setup_mqtt. rewrite Hu, Hc, Hl.
  do 8 (destruct n as [|n]; [by run_M|]). lia.
Qed.

(** X17. A teardown call (the "offline" message, the loop stop, the
    disconnect or the close of the port) is made in a run only by the
    interrupt handler: if the trace of a run has one, the run was interrupted,
    has set the run flag to false and has returned. *)
Theorem teardown_only_by_handler (w : world) (fuel : nat) (p : option nat)
    (e : event) :
  e ∈ trace (run w fuel (init_state p)).2 →
  kind_of e = KTeardown →
  (run w fuel (init_state p)).1 = Ok Finished
  ∧ running (run w fuel (init_state p)).2 = false
  ∧ ∃ n, p = Some n.
Proof.
  intros Hin Hk.
  destruct (run_has_outcome float_of_str int_of_str json_dumps w fuel
              (init_state p)) as [(evs & Hevs & Htr & _)|(st1 & Hs & Hout)].
  - rewrite Htr in Hin. simpl in Hin.
    apply (proj1 (Forall_forall _ _) Hevs) in Hin. unfold of_kinds in Hin.
    rewrite Hk in Hin. rewrite !elem_of_cons, elem_of_nil in Hin.
    intuition discriminate.
  - rewrite Hout. simpl. split; [done|]. split; [done|].
    destruct Hs as (pre & _ & _ & _ & Hp & _). simpl in Hp. eauto.
Qed.

End Runs.

(** ** The further properties on concrete worlds *)

Lemma publish_data_missing_entry_witness :
  (publish_data ref_dumps (steady_cycle [] (py "T0"))
     (<["temperature" := VFloat (mkDec 235 1)]> ∅) (init_state None)).1
  = Ok ()
  ∧ List.filter is_publish
      (trace (publish_data ref_dumps (steady_cycle [] (py "T0"))
                (<["temperature" := VFloat (mkDec 235 1)]> ∅)
                (init_state None)).2)
    = [ MqttPublish MQTT_TOPIC_TEMP
          (ref_dumps (payload_object (VFloat (mkDec 235 1)) (py "T0")
                        unit_celsius)) ].
Proof.
  rewrite (proj2 (publish_data_missing_entry ref_dumps
                    (steady_cycle [] (py "T0"))
                    (<["temperature" := VFloat (mkDec 235 1)]> ∅)
                    (init_state None) eq_refl)
             (VFloat (mkDec 235 1))).
  - split; vm_compute; reflexivity.
  - vm_compute; reflexivity.
  - vm_compute; reflexivity.
Defined.

Lemma read_sensor_data_outcomes_witness :
  (read_sensor_data (F := decimal)
     (mkCycle (Returns ()) (Returns 0%N) (Returns (py "TEMP:1 HUM:2")) (py "T0"))
     (init_state None)).1 = Ok None
  ∧ (read_sensor_data (F := decimal)
       (mkCycle (Returns ()) (Returns 12%N) (Fails UnicodeDecodeError) (py "T0"))
       (init_state None)).1 = Ok None.
Proof.
  rewrite !read_sensor_data_outcomes by reflexivity. split; reflexivity.
Defined.

Lemma setup_uart_outcomes_witness :
  run ref_float ref_int ref_dumps
    (mkWorld (Fails ValueError) (Returns ()) (Returns ())
       (λ _, steady_cycle [] (py "T0")))
    3 (init_state None)
  = (Raise (Exc ValueError),
     mkState None true
       [ Log INFO "Starting sensor data collector..." [];
         SerialOpen UART_PORT BAUD_RATE 1 ]
       None).
Proof.
  refine (proj2 (setup_uart_outcomes ref_float ref_int ref_dumps
                   (mkWorld (Fails ValueError) (Returns ()) (Returns ())
                      (λ _, steady_cycle [] (py "T0")))
                   (init_state None) 3 eq_refl) ValueError eq_refl _).
  discriminate.
Defined.

Lemma setup_mqtt_outcomes_witness :
  (setup_mqtt (F := decimal)
     (mkWorld (Returns ()) (Fails OSError) (Returns ())
        (λ _, steady_cycle [] (py "T0")))
     (init_state None)).1 = Ok false.
Proof.
  rewrite setup_mqtt_outcomes by reflexivity. reflexivity.
Defined.

Lemma stop_outcomes_witness :
  stop (F := decimal) (mkState (Some true) true [] None)
  = (Ok (),
     mkState (Some false) false
       [ MqttPublish MQTT_TOPIC_STATUS (py "offline"); MqttLoopStop;
         MqttDisconnect; SerialClose; Log INFO "Sensor collector stopped" [] ]
       None).
Proof.
  exact (proj1 (stop_outcomes (F := decimal) (mkState (Some true) true [] None)
                  eq_refl)).
Defined.

Lemma callbacks_outcomes_witness :
  (on_mqtt_connect (F := decimal) 5 (init_state None)).2
  = mkState None true
      [Log ERROR "MQTT: Connection failed with code {rc}" [AInt 5]] None.
Proof.
  rewrite (proj1 (callbacks_outcomes (F := decimal) 5 (init_state None) eq_refl)).
  reflexivity.
Defined.

Lemma parse_logs_decode_errors_only_witness :
  parse_sensor_data_call ref_float ref_int (py "HUM:40") (init_state None)
  = (Ok None, init_state None).
Proof.
  rewrite (proj2 (parse_logs_decode_errors_only ref_float ref_int
                    (py "HUM:40") (init_state None) eq_refl)).
  - vm_compute. reflexivity.
  - all_decodable.
Defined.

Lemma cycle_always_completes_witness :
  (cycle_body ref_float ref_int ref_dumps
     (mkCycle (Fails OSError) (Fails OSError) (Fails OSError) (py "T0"))
     (init_state None)).1 = Ok ().
Proof.
  destruct (cycle_always_completes ref_float ref_int ref_dumps
              (mkCycle (Fails OSError) (Fails OSError) (Fails OSError) (py "T0"))
              (init_state None) eq_refl) as (lg & evs & Heq & _).
  rewrite Heq. reflexivity.
Defined.

Lemma cycle_publishes_reading_witness :
  (cycle_body ref_float ref_int ref_dumps
     (steady_cycle (py "TEMP:23.5 HUM:60.2") (py "T0")) (init_state None)).1
  = Ok ().
Proof.
  assert (Hparse : parse_sensor_data ref_float ref_int (py "TEMP:23.5 HUM:60.2")
                   = Ok (Some (<["humidity" := VFloat (mkDec 602 1)]>
                                 (<["temperature" := VFloat (mkDec 235 1)]> ∅))))
    by (vm_compute; reflexivity).
  assert (Hn0 : 18%N ≠ 0%N) by discriminate.
  destruct (cycle_publishes_reading ref_float ref_int ref_dumps
              (steady_cycle (py "TEMP:23.5 HUM:60.2") (py "T0"))
              (init_state None) 18%N (py "TEMP:23.5 HUM:60.2")
              (<["humidity" := VFloat (mkDec 602 1)]>
                 (<["temperature" := VFloat (mkDec 235 1)]> ∅))
              eq_refl eq_refl eq_refl Hn0 eq_refl Hparse)
    as (t & h & _ & _ & Heq).
  rewrite Heq. reflexivity.
Defined.

Lemma loop_never_stops_by_itself_witness :
  (run ref_float ref_int ref_dumps
     (steady_world (py "TEMP:abc") (py "T0")) 3 (init_state None)).1
  = Ok StillRunning.
Proof.
  destruct (loop_never_stops_by_itself ref_float ref_int ref_dumps
              (steady_world (py "TEMP:abc") (py "T0")) 3
              eq_refl eq_refl eq_refl) as (evs & Heq & _).
  rewrite Heq. reflexivity.
Defined.

Lemma interrupt_during_startup_witness :
  run ref_float ref_int ref_dumps
    (steady_world (py "TEMP:23.5 HUM:60.2") (py "T0")) 3 (init_state (Some 4))
  = (Raise KeyboardInterrupt,
     mkState (Some true) true
       [ Log INFO "Starting sensor data collector..." [];
         SerialOpen UART_PORT BAUD_RATE 1;
         Log INFO "UART connection established on {UART_PORT}" [AStr UART_PORT];
         MqttConnect MQTT_BROKER MQTT_PORT 60 ]
       None).
Proof.
  refine (interrupt_during_startup ref_float ref_int ref_dumps
            (steady_world (py "TEMP:23.5 HUM:60.2") (py "T0")) 3 4
            eq_refl eq_refl eq_refl _).
  lia.
Defined.

Lemma teardown_only_by_handler_witness :
  (run ref_float ref_int ref_dumps
     (steady_world (py "TEMP:23.5 HUM:60.2") (py "T0")) 5
     (init_state (Some 9))).1 = Ok Finished
  ∧ running (run ref_float ref_int ref_dumps
               (steady_world (py "TEMP:23.5 HUM:60.2") (py "T0")) 5
               (init_state (Some 9))).2 = false
  ∧ ∃ n, Some 9 = Some n.
Proof.
  refine (teardown_only_by_handler ref_float ref_int ref_dumps
            (steady_world (py "TEMP:23.5 HUM:60.2") (py "T0")) 5 (Some 9)
            SerialClose _ eq_refl).
  token_of_list.
Defined.
